(** * SSD1306-style OLED text driver on the ATtiny412 TWI master (src/main.c)

    Shallow embedding of the driver in [main.c]: the TWI (I2C) primitives
    [i2c_start], [i2c_write], [i2c_stop], the command channel
    [oled_command], the bring-up sequence [oled_init], and the text path
    [oled_set_cursor], [oled_write_char], [oled_write_string] together with
    the [font] table they index.

    The hardware is modelled by what the code does to it:
    - every store to a TWI0 register is appended to a log of register
      writes;
    - every load of [TWI0.MSTATUS] consumes the next value of a status
      oracle [MSTATUS : nat -> Z] (the n-th load returns [MSTATUS n]);
    - [pgm_read_byte] loads a byte of program memory at an offset from the
      symbol [font]; inside the table the byte is the table's, outside it
      is whatever the rest of program memory holds, a parameter [beyond].

    The busy-wait loops have no bound in the source, so every operation
    takes a fuel argument bounding the iterations of each wait loop; running
    out of fuel is [None]. *)

From Stdlib Require Import ZArith List Lia Bool String Ascii.
Import ListNotations.
Open Scope Z_scope.

(** ** Machine integers *)

(** Conversion to [uint8_t]. *)
Definition u8 (x : Z) : Z := x mod 256.

(** ** Constants *)

Definition OLED_ADDR : Z := 0x3C.

Definition OLED_CMD_DISPLAY_OFF : Z := 0xAE.
Definition OLED_CMD_DISPLAY_ON : Z := 0xAF.
Definition OLED_CMD_SET_DISPLAY_CLOCK_DIV : Z := 0xD5.
Definition OLED_CMD_SET_MULTIPLEX : Z := 0xA8.
Definition OLED_CMD_SET_DISPLAY_OFFSET : Z := 0xD3.
Definition OLED_CMD_SET_START_LINE : Z := 0x40.
Definition OLED_CMD_CHARGE_PUMP : Z := 0x8D.
Definition OLED_CMD_MEMORY_MODE : Z := 0x20.
Definition OLED_CMD_SEG_REMAP : Z := 0xA1.
Definition OLED_CMD_COM_SCAN_DEC : Z := 0xC8.
Definition OLED_CMD_SET_CONTRAST : Z := 0x81.
Definition OLED_CMD_PRECHARGE : Z := 0xD9.
Definition OLED_CMD_SETVCOMDETECT : Z := 0xDB.
Definition OLED_CMD_DISPLAY_ALL_ON_RESUME : Z := 0xA4.
Definition OLED_CMD_NORMAL_DISPLAY : Z := 0xA6.

(** Bit mask and group code of the device header <avr/io.h> (ATtiny412):
    write-interrupt flag of MSTATUS, and the STOP command of MCTRLB. *)
Definition TWI_WIF_bm : Z := 0x40.
Definition TWI_MCMD_STOP_gc : Z := 0x03.

(** ** The font table *)

(** [const uint8_t font[][5] PROGMEM]: twelve rows of five column bytes,
    in the order of the initializer. *)
Definition font : list (list Z) :=
  [ [0x00; 0x00; 0x00; 0x00; 0x00];
    [0x00; 0x00; 0x5F; 0x00; 0x00];
    [0x7C; 0x12; 0x11; 0x12; 0x7C];
    [0x00; 0x42; 0x7F; 0x40; 0x00];
    [0x42; 0x61; 0x51; 0x49; 0x46];
    [0x21; 0x41; 0x45; 0x4B; 0x31];
    [0x18; 0x14; 0x12; 0x7F; 0x10];
    [0x27; 0x45; 0x45; 0x45; 0x39];
    [0x3C; 0x4A; 0x49; 0x49; 0x30];
    [0x01; 0x71; 0x09; 0x05; 0x03];
    [0x36; 0x49; 0x49; 0x49; 0x36];
    [0x06; 0x49; 0x49; 0x29; 0x1E] ].

(** Number of rows of the table. *)
Definition font_rows : Z := Z.of_nat (List.length font).

(** The table as it lies in program memory: row after row. *)
Definition font_bytes : list Z := List.concat font.

(** Size of the table in bytes. *)
Definition font_size : Z := Z.of_nat (List.length font_bytes).

(** [&font[row][i] - &font[0][0]] in bytes. *)
Definition font_offset (row i : Z) : Z := 5 * row + i.

(** Whether a byte offset from [font] lies inside the table. *)
Definition in_table (off : Z) : bool := (0 <=? off) && (off <? font_size).

(** ** Bus state *)

(** A store to one of the TWI0 master registers. *)
Inductive event : Type :=
| WrMADDR (v : Z)
| WrMDATA (v : Z)
| WrMCTRLB (v : Z).

(** The stores made so far, oldest first, and the number of loads of
    MSTATUS made so far. *)
Record twi : Type := mkTwi { log : list event; polls : nat }.

(** The state after reset: nothing written, nothing read. *)
Definition twi_reset : twi := mkTwi [] 0.

(** A driver routine: given the fuel of each wait loop and the state at
    entry, the state at return, or [None] when a wait loop ran out of
    fuel. *)
Definition prog : Type := nat -> twi -> option twi.

Definition skip : prog := fun _ s => Some s.

Definition seq (p q : prog) : prog :=
  fun fuel s => match p fuel s with
                | Some s' => q fuel s'
                | None => None
                end.

Notation "p ;; q" := (seq p q) (at level 61, right associativity).

(** A store to a register. *)
Definition store (e : event) : prog :=
  fun _ s => Some (mkTwi (log s ++ [e]) (polls s)).

(** [for (uint8_t i = lo; i < lo + n; i++) body(i)] *)
Fixpoint for_upto (lo : Z) (n : nat) (body : Z -> prog) : prog :=
  match n with
  | O => skip
  | S k => body lo ;; for_upto (lo + 1) k body
  end.

(** A C string as the character codes before its terminating NUL. *)
Definition c_str (s : string) : list Z :=
  List.map (fun a => Z.of_N (N_of_ascii a)) (list_ascii_of_string s).

Section Driver.

(** The value returned by the n-th load of [TWI0.MSTATUS]. *)
Variable MSTATUS : nat -> Z.

(** The content of program memory outside the font table, by byte
    offset from [font]. *)
Variable beyond : Z -> Z.

(** [pgm_read_byte(font_base + off)] *)
Definition pgm_read_byte (off : Z) : Z :=
  if in_table off then nth (Z.to_nat off) font_bytes 0 else u8 (beyond off).

(** [while (!(TWI0.MSTATUS & TWI_WIF_bm));] *)
Fixpoint wait_wif (fuel : nat) (s : twi) : option twi :=
  match fuel with
  | O => None
  | S f =>
      let status := MSTATUS (polls s) in
      let s' := mkTwi (log s) (S (polls s)) in
      if Z.land status TWI_WIF_bm =? 0 then wait_wif f s' else Some s'
  end.

Definition i2c_start (address : Z) : prog :=
  store (WrMADDR (u8 (Z.shiftl address 1))) ;; wait_wif.

Definition i2c_write (data : Z) : prog :=
  store (WrMDATA data) ;; wait_wif.

Definition i2c_stop : prog :=
  store (WrMCTRLB TWI_MCMD_STOP_gc).

Definition oled_command (cmd : Z) : prog :=
  i2c_start OLED_ADDR ;;
  i2c_write 0x00 ;;
  i2c_write cmd ;;
  i2c_stop.

Definition oled_init : prog :=
  oled_command OLED_CMD_DISPLAY_OFF ;;
  oled_command OLED_CMD_SET_DISPLAY_CLOCK_DIV ;;
  oled_command 0x80 ;;
  oled_command OLED_CMD_SET_MULTIPLEX ;;
  oled_command 0x1F ;;
  oled_command OLED_CMD_SET_DISPLAY_OFFSET ;;
  oled_command 0x00 ;;
  oled_command (Z.lor OLED_CMD_SET_START_LINE 0x00) ;;
  oled_command OLED_CMD_CHARGE_PUMP ;;
  oled_command 0x14 ;;
  oled_command OLED_CMD_MEMORY_MODE ;;
  oled_command 0x00 ;;
  oled_command (Z.lor OLED_CMD_SEG_REMAP 0x01) ;;
  oled_command OLED_CMD_COM_SCAN_DEC ;;
  oled_command OLED_CMD_SET_CONTRAST ;;
  oled_command 0x8F ;;
  oled_command OLED_CMD_PRECHARGE ;;
  oled_command 0xF1 ;;
  oled_command OLED_CMD_SETVCOMDETECT ;;
  oled_command 0x40 ;;
  oled_command OLED_CMD_DISPLAY_ALL_ON_RESUME ;;
  oled_command OLED_CMD_NORMAL_DISPLAY ;;
  oled_command OLED_CMD_DISPLAY_ON.

Definition oled_set_cursor (col row : Z) : prog :=
  oled_command (u8 (0xB0 + row)) ;;
  oled_command (u8 (0x00 + Z.land col 0x0F)) ;;
  oled_command (u8 (0x10 + Z.land (Z.shiftr col 4) 0x0F)).

Definition oled_write_char (c : Z) : prog :=
  i2c_start OLED_ADDR ;;
  i2c_write 0x40 ;;
  for_upto 0 5 (fun i => i2c_write (pgm_read_byte (font_offset (c - 32) i))) ;;
  i2c_write 0x00 ;;
  i2c_stop.

(** [while ( *str) oled_write_char( *str++);] over the codes stored at
    [str]; the end of the list is the terminating NUL. *)
Fixpoint oled_write_string (str : list Z) : prog :=
  match str with
  | [] => skip
  | c :: rest =>
      if c =? 0 then skip
      else oled_write_char c ;; oled_write_string rest
  end.

End Driver.

(** ** Reading the log as bus transactions *)

(** One transaction: the 7-bit address and direction bit of the address
    byte, and the bytes written between start and stop (the control byte
    first). *)
Record txn : Type := mkTxn { t_addr : Z; t_read : bool; t_bytes : list Z }.

(** Splits a log into transactions; [cur] is the transaction that is open.
    A start while a transaction is open, a data byte or a stop while none
    is, an MCTRLB command other than STOP, and a log that ends inside a
    transaction have no reading. *)
Fixpoint parse (cur : option txn) (evs : list event) : option (list txn) :=
  match evs, cur with
  | [], None => Some []
  | [], Some _ => None
  | WrMADDR v :: r, None =>
      parse (Some (mkTxn (Z.shiftr v 1) (Z.testbit v 0) [])) r
  | WrMADDR _ :: _, Some _ => None
  | WrMDATA v :: r, Some t =>
      parse (Some (mkTxn (t_addr t) (t_read t) (t_bytes t ++ [v]))) r
  | WrMDATA _ :: _, None => None
  | WrMCTRLB v :: r, Some t =>
      if v =? TWI_MCMD_STOP_gc then option_map (cons t) (parse None r)
      else None
  | WrMCTRLB _ :: _, None => None
  end.

Definition transactions (evs : list event) : option (list txn) :=
  parse None evs.

(** The bytes of a transaction after its control byte. *)
Definition payload (t : txn) : list Z := tl (t_bytes t).

(** A write transaction to the display with control byte [0x00]. *)
Definition command_txn (cmd : Z) : txn := mkTxn OLED_ADDR false [0x00; cmd].

(** A write transaction to the display with control byte [0x40]. *)
Definition data_txn (bytes : list Z) : txn :=
  mkTxn OLED_ADDR false (0x40 :: bytes).

(** The payload bytes of all transactions, in order. *)
Definition byte_stream (ts : list txn) : list Z := flat_map payload ts.

(** ** What the routines are expected to write *)

(** The register writes of one command transaction. *)
Definition command_events (cmd : Z) : list event :=
  [WrMADDR 0x78; WrMDATA 0x00; WrMDATA cmd; WrMCTRLB TWI_MCMD_STOP_gc].

(** The register writes of one data transaction. *)
Definition data_events (bytes : list Z) : list event :=
  WrMADDR 0x78 :: WrMDATA 0x40 ::
  List.map WrMDATA bytes ++ [WrMCTRLB TWI_MCMD_STOP_gc].

(** The five bytes that the loop of [oled_write_char] reads for [c]. *)
Definition glyph (beyond : Z -> Z) (c : Z) : list Z :=
  List.map (fun i => pgm_read_byte beyond (font_offset (c - 32) i))
           [0; 1; 2; 3; 4].

(** The characters of [str] before its first NUL. *)
Fixpoint until_nul (str : list Z) : list Z :=
  match str with
  | [] => []
  | c :: rest => if c =? 0 then [] else c :: until_nul rest
  end.

(** The values of the OLED_CMD_ macros. *)
Definition controller_opcodes : list Z :=
  [ OLED_CMD_DISPLAY_OFF; OLED_CMD_DISPLAY_ON;
    OLED_CMD_SET_DISPLAY_CLOCK_DIV; OLED_CMD_SET_MULTIPLEX;
    OLED_CMD_SET_DISPLAY_OFFSET; OLED_CMD_SET_START_LINE;
    OLED_CMD_CHARGE_PUMP; OLED_CMD_MEMORY_MODE; OLED_CMD_SEG_REMAP;
    OLED_CMD_COM_SCAN_DEC; OLED_CMD_SET_CONTRAST; OLED_CMD_PRECHARGE;
    OLED_CMD_SETVCOMDETECT; OLED_CMD_DISPLAY_ALL_ON_RESUME;
    OLED_CMD_NORMAL_DISPLAY ].

(** ** Behaviour of the hardware and of routines *)

(** The write-interrupt flag is set in a value of MSTATUS. *)
Definition wif_set (status : Z) : Prop := Z.land status TWI_WIF_bm <> 0.

(** From every load on, some later load of MSTATUS sees the flag set. *)
Definition responsive (MSTATUS : nat -> Z) : Prop :=
  forall n, exists m, (n <= m)%nat /\ wif_set (MSTATUS m).

(** Whenever [p] returns, it has appended exactly [evs] to the log. *)
Definition emits (p : prog) (evs : list event) : Prop :=
  forall fuel s s', p fuel s = Some s' -> log s' = log s ++ evs.

(** From every state, [p] returns once the wait loops are given enough
    iterations. *)
Definition completes (p : prog) : Prop :=
  forall s, exists fuel s', p fuel s = Some s'.

(** More fuel does not change a result. *)
Definition monotone (p : prog) : Prop :=
  forall f f' s s', (f <= f')%nat -> p f s = Some s' -> p f' s = Some s'.

(** [p] leaves the bus as it found it: entered with a log that reads as
    whole transactions, it returns with that log extended by whole
    transactions. *)
Definition closes_bus (p : prog) : Prop :=
  forall fuel s s' ts,
    transactions (log s) = Some ts -> p fuel s = Some s' ->
    exists ts', transactions (log s') = Some (ts ++ ts').

(** Hardware that sets the flag at once, hardware that never does, and
    erased flash. *)
Definition always_ready : nat -> Z := fun _ => TWI_WIF_bm.
Definition never_ready : nat -> Z := fun _ => 0.
Definition erased : Z -> Z := fun _ => 0xFF.

(** [p] is monotone in its fuel, writes exactly [evs] whenever it returns,
    and returns on responsive hardware. *)
Definition behaves (MSTATUS : nat -> Z) (p : prog) (evs : list event) : Prop :=
  monotone p /\ emits p evs /\ (responsive MSTATUS -> completes p).

(** The bytes that [oled_init] passes to [oled_command], in order. *)
Definition init_sequence : list Z :=
  [ 0xAE; 0xD5; 0x80; 0xA8; 0x1F; 0xD3; 0x00; 0x40; 0x8D; 0x14; 0x20; 0x00;
    0xA1; 0xC8; 0x81; 0x8F; 0xD9; 0xF1; 0xDB; 0x40; 0xA4; 0xA6; 0xAF ].

(** The register writes of [oled_write_char c]. *)
Definition char_events (beyond : Z -> Z) (c : Z) : list event :=
  data_events (glyph beyond c ++ [0x00]).

(** A digit character, ['0'] to ['9']. *)
Definition is_digit (c : Z) : Prop := 48 <= c <= 57.

(** A character code that has a row in the table under the lookup
    [font[c - 32]]. *)
Definition supported (c : Z) : Prop := 32 <= c < 32 + font_rows.

(** [p] closes the transactions it opens, and on responsive hardware it
    returns, so they are carried through to their stop. *)
Definition transactional (MSTATUS : nat -> Z) (p : prog) : Prop :=
  closes_bus p /\ (responsive MSTATUS -> completes p).

(** ** The rest of the program: [i2c_init] and [main] *)

Definition F_CPU : Z := 3333333.
Definition SCL_CLOCK : Z := 100000.

(** Enable bit of MCTRLA, from the device header <avr/io.h>. *)
Definition TWI_ENABLE_bm : Z := 0x01.

(** Conversion to [unsigned long]. *)
Definition u32 (x : Z) : Z := x mod 2 ^ 32.

(** A store to one of the two configuration registers of TWI0. *)
Inductive cfg_event : Type :=
| WrMBAUD (v : Z)
| WrMCTRLA (v : Z).

(** The whole peripheral: the configuration stores made so far, and the
    bus state. *)
Record mcu : Type := mkMcu { cfg : list cfg_event; bus : twi }.

Definition mcu_reset : mcu := mkMcu [] twi_reset.

(** A routine on the whole peripheral. *)
Definition mprog : Type := nat -> mcu -> option mcu.

(** [TWI0.MBAUD = (F_CPU / (2 * SCL_CLOCK)) - 5; TWI0.MCTRLA = TWI_ENABLE_bm;]
    The quotient is computed in [unsigned long] and stored in an 8-bit
    register. *)
Definition i2c_init (m : mcu) : mcu :=
  mkMcu (cfg m ++ [WrMBAUD (u8 (u32 (F_CPU / (2 * SCL_CLOCK) - 5)));
                   WrMCTRLA TWI_ENABLE_bm])
        (bus m).

(** A bus routine run on the whole peripheral. *)
Definition on_bus (p : prog) : mprog :=
  fun fuel m => match p fuel (bus m) with
                | Some b => Some (mkMcu (cfg m) b)
                | None => None
                end.

(** [while (1) { }] *)
Fixpoint idle_loop (fuel : nat) (m : mcu) : option mcu :=
  match fuel with
  | O => None
  | S f => idle_loop f m
  end.

(** The statements of [main] before its final loop. *)
Definition main_setup (MSTATUS : nat -> Z) (beyond : Z -> Z) : mprog :=
  fun fuel m =>
    on_bus (oled_init MSTATUS ;;
            oled_set_cursor MSTATUS 0 0 ;;
            oled_write_string MSTATUS beyond (c_str "Temp: 25C") ;;
            oled_set_cursor MSTATUS 0 1 ;;
            oled_write_string MSTATUS beyond (c_str "Humidity: 50%"))
           fuel (i2c_init m).

Definition main (MSTATUS : nat -> Z) (beyond : Z -> Z) : mprog :=
  fun fuel m => match main_setup MSTATUS beyond fuel m with
                | Some m' => idle_loop fuel m'
                | None => None
                end.

(** ** Further notions used in the statements *)

(** [m] is the first load of MSTATUS, counted from load [n], that sees the
    write-interrupt flag. *)
Definition first_set (MSTATUS : nat -> Z) (n m : nat) : Prop :=
  (n <= m)%nat /\ wif_set (MSTATUS m) /\
  forall k, (n <= k < m)%nat -> ~ wif_set (MSTATUS k).

(** A write transaction addressed to the display whose control byte is the
    command or the data marker. *)
Definition display_write (t : txn) : Prop :=
  t_addr t = OLED_ADDR /\ t_read t = false /\
  exists ctl rest, t_bytes t = ctl :: rest /\ (ctl = 0x00 \/ ctl = 0x40).

(** Entered with an idle bus, [p] returns having added only whole write
    transactions to the display. *)
Definition only_display_writes (p : prog) : Prop :=
  forall fuel s s' ts,
    transactions (log s) = Some ts -> p fuel s = Some s' ->
    exists ts', transactions (log s') = Some (ts ++ ts') /\
                Forall display_write ts'.

(** The cursor position that the three command bytes of [oled_set_cursor]
    stand for. *)
Definition cursor_of_commands (page lo hi : Z) : Z * Z :=
  (16 * (hi - 0x10) + lo, u8 (page - 0xB0)).

(** The character code that the comment of each row of [font] names. *)
Definition font_labels : list Z :=
  [32; 33; 48; 49; 50; 51; 52; 53; 54; 55; 56; 57].

(** Hardware that sets the flag on every third load of MSTATUS only. *)
Definition every_third : nat -> Z :=
  fun n => if (n mod 3 =? 2)%nat then TWI_WIF_bm else 0.

(** * Proofs *)

(** ** Sequencing *)

Lemma seq_some (p q : prog) fuel s s' :
  (p ;; q) fuel s = Some s' <->
  exists s1, p fuel s = Some s1 /\ q fuel s1 = Some s'.
Proof.
  unfold seq. destruct (p fuel s) as [s1|]; split.
  - intro H. exists s1. now split.
  - intros (s2 & H1 & H2). now inversion H1; subst.
  - discriminate.
  - intros (s2 & H1 & _). discriminate.
Qed.

Lemma monotone_seq (p q : prog) :
  monotone p -> monotone q -> monotone (p ;; q).
Proof.
  intros Hp Hq f f' s s' Hle H.
  apply seq_some in H. destruct H as (s1 & H1 & H2).
  apply seq_some. exists s1. split; [eapply Hp | eapply Hq]; eassumption.
Qed.

Lemma emits_seq (p q : prog) e1 e2 :
  emits p e1 -> emits q e2 -> emits (p ;; q) (e1 ++ e2).
Proof.
  intros Hp Hq fuel s s' H.
  apply seq_some in H. destruct H as (s1 & H1 & H2).
  rewrite (Hq _ _ _ H2), (Hp _ _ _ H1). now rewrite app_assoc.
Qed.

Lemma completes_seq (p q : prog) :
  monotone p -> monotone q -> completes p -> completes q ->
  completes (p ;; q).
Proof.
  intros Mp Mq Cp Cq s.
  destruct (Cp s) as (f1 & s1 & H1).
  destruct (Cq s1) as (f2 & s2 & H2).
  exists (Nat.max f1 f2), s2. apply seq_some. exists s1. split.
  - apply (Mp f1); [apply Nat.le_max_l | assumption].
  - apply (Mq f2); [apply Nat.le_max_r | assumption].
Qed.

Lemma emits_ext (p : prog) e1 e2 : e1 = e2 -> emits p e1 -> emits p e2.
Proof. now intros ->. Qed.

Lemma monotone_skip : monotone skip.
Proof. now intros f f' s s' _ H. Qed.

Lemma emits_skip : emits skip [].
Proof.
  intros fuel s s' H. inversion H; subst. now rewrite app_nil_r.
Qed.

Lemma completes_skip : completes skip.
Proof. intro s. now exists O, s. Qed.

Lemma monotone_store e : monotone (store e).
Proof. now intros f f' s s' _ H. Qed.

Lemma emits_store e : emits (store e) [e].
Proof. intros fuel s s' H. now inversion H; subst. Qed.

Lemma completes_store e : completes (store e).
Proof. intro s. now exists O; eexists. Qed.

Lemma store_polls e fuel s s' : store e fuel s = Some s' -> polls s' = polls s.
Proof. intro H. now inversion H; subst. Qed.

(** ** The status oracle *)

Lemma always_ready_responsive : responsive always_ready.
Proof. intro n. exists n. split; [lia | discriminate]. Qed.

Lemma never_ready_stuck : forall m, ~ wif_set (never_ready m).
Proof. intros m H. now apply H. Qed.

Section Proofs.

Variable MSTATUS : nat -> Z.
Variable beyond : Z -> Z.

(** ** The wait_wif MSTATUS loop *)

Lemma monotone_wait : monotone (wait_wif MSTATUS).
Proof.
  intros f. induction f as [|f IH]; intros f' s s' Hle H; [discriminate|].
  destruct f' as [|f']; [lia|]. simpl in *.
  destruct (Z.land (MSTATUS (polls s)) TWI_WIF_bm =? 0); [|assumption].
  apply IH; [lia | assumption].
Qed.

Lemma wait_log fuel s s' : wait_wif MSTATUS fuel s = Some s' -> log s' = log s.
Proof.
  revert s. induction fuel as [|f IH]; intros s H; [discriminate|].
  simpl in H.
  destruct (Z.land (MSTATUS (polls s)) TWI_WIF_bm =? 0).
  - now rewrite (IH _ H).
  - now inversion H.
Qed.

Lemma emits_wait : emits (wait_wif MSTATUS) [].
Proof.
  intros fuel s s' H. rewrite app_nil_r. eapply wait_log, H.
Qed.

(** The loop leaves after the load numbered [polls s + k] when that is
    the first one from [polls s] on that sees the flag. *)
Lemma wait_reaches k : forall s,
  wif_set (MSTATUS (polls s + k)) -> exists s', wait_wif MSTATUS (S k) s = Some s'.
Proof.
  induction k as [|k IH]; intros s H.
  - rewrite Nat.add_0_r in H. simpl.
    destruct (Z.eqb_spec (Z.land (MSTATUS (polls s)) TWI_WIF_bm) 0) as [E|E].
    + now elim H.
    + now eexists.
  - change (wait_wif MSTATUS (S (S k)) s) with
      (if Z.land (MSTATUS (polls s)) TWI_WIF_bm =? 0
       then wait_wif MSTATUS (S k) (mkTwi (log s) (S (polls s)))
       else Some (mkTwi (log s) (S (polls s)))).
    destruct (Z.land (MSTATUS (polls s)) TWI_WIF_bm =? 0).
    + apply IH. simpl polls.
      now replace (S (polls s) + k)%nat with (polls s + S k)%nat by lia.
    + now eexists.
Qed.

Lemma wait_returns_saw_flag fuel : forall s s',
  wait_wif MSTATUS fuel s = Some s' ->
  exists m, (polls s <= m)%nat /\ wif_set (MSTATUS m).
Proof.
  induction fuel as [|f IH]; intros s s' H; [discriminate|].
  simpl in H.
  destruct (Z.eqb_spec (Z.land (MSTATUS (polls s)) TWI_WIF_bm) 0) as [E|E].
  - destruct (IH _ _ H) as (m & Hm & Hw). exists m. simpl in Hm.
    split; [lia | assumption].
  - exists (polls s). now split.
Qed.

Lemma wait_terminates_iff s :
  (exists fuel s', wait_wif MSTATUS fuel s = Some s') <->
  (exists m, (polls s <= m)%nat /\ wif_set (MSTATUS m)).
Proof.
  split.
  - intros (fuel & s' & H). eapply wait_returns_saw_flag, H.
  - intros (m & Hm & Hw). exists (S (m - polls s)).
    apply wait_reaches. now replace (polls s + (m - polls s))%nat with m by lia.
Qed.

Lemma wait_hangs_iff s :
  (forall fuel, wait_wif MSTATUS fuel s = None) <->
  (forall m, (polls s <= m)%nat -> ~ wif_set (MSTATUS m)).
Proof.
  split.
  - intros H m Hm Hw.
    destruct (proj2 (wait_terminates_iff s)) as (fuel & s' & E).
    + now exists m.
    + now rewrite H in E.
  - intros H fuel. destruct (wait_wif MSTATUS fuel s) as [s'|] eqn:E; [|reflexivity].
    destruct (wait_returns_saw_flag _ _ _ E) as (m & Hm & Hw).
    now elim (H m Hm).
Qed.

Lemma completes_wait : responsive MSTATUS -> completes (wait_wif MSTATUS).
Proof.
  intros R s. apply wait_terminates_iff. apply R.
Qed.

(** ** The routines *)

Lemma behaves_seq (p q : prog) e1 e2 :
  behaves MSTATUS p e1 -> behaves MSTATUS q e2 ->
  behaves MSTATUS (p ;; q) (e1 ++ e2).
Proof.
  intros (Mp & Ep & Cp) (Mq & Eq & Cq). repeat split.
  - now apply monotone_seq.
  - now apply emits_seq.
  - intro R. apply completes_seq; auto.
Qed.

Lemma behaves_ext (p : prog) e1 e2 :
  e1 = e2 -> behaves MSTATUS p e1 -> behaves MSTATUS p e2.
Proof. now intros ->. Qed.

Lemma behaves_skip : behaves MSTATUS skip [].
Proof.
  repeat split;
    [apply monotone_skip | apply emits_skip | intros _; apply completes_skip].
Qed.

Lemma behaves_store e : behaves MSTATUS (store e) [e].
Proof.
  repeat split;
    [apply monotone_store | apply emits_store
    | intros _; apply completes_store].
Qed.

Lemma behaves_wait : behaves MSTATUS (wait_wif MSTATUS) [].
Proof.
  repeat split;
    [apply monotone_wait | apply emits_wait | apply completes_wait].
Qed.

Lemma behaves_i2c_start address :
  behaves MSTATUS (i2c_start MSTATUS address)
          [WrMADDR (u8 (Z.shiftl address 1))].
Proof.
  apply (behaves_seq _ _ [_] []); [apply behaves_store | apply behaves_wait].
Qed.

Lemma behaves_i2c_write data :
  behaves MSTATUS (i2c_write MSTATUS data) [WrMDATA data].
Proof.
  apply (behaves_seq _ _ [_] []); [apply behaves_store | apply behaves_wait].
Qed.

Lemma behaves_i2c_stop :
  behaves MSTATUS i2c_stop [WrMCTRLB TWI_MCMD_STOP_gc].
Proof. apply behaves_store. Qed.

Lemma behaves_oled_command cmd :
  behaves MSTATUS (oled_command MSTATUS cmd) (command_events cmd).
Proof.
  unfold oled_command.
  apply (behaves_seq _ _ [_] [_; _; _]); [apply behaves_i2c_start|].
  apply (behaves_seq _ _ [_] [_; _]); [apply behaves_i2c_write|].
  apply (behaves_seq _ _ [_] [_]); [apply behaves_i2c_write|].
  apply behaves_i2c_stop.
Qed.

Lemma behaves_oled_write_char c :
  behaves MSTATUS (oled_write_char MSTATUS beyond c) (char_events beyond c).
Proof.
  unfold oled_write_char, char_events, data_events, glyph.
  set (rd := fun i => pgm_read_byte beyond (font_offset (c - 32) i)).
  change (for_upto 0 5 (fun i => i2c_write MSTATUS (rd i)))
    with (i2c_write MSTATUS (rd 0) ;; i2c_write MSTATUS (rd 1) ;;
          i2c_write MSTATUS (rd 2) ;; i2c_write MSTATUS (rd 3) ;;
          i2c_write MSTATUS (rd 4) ;; skip).
  apply (behaves_seq _ _ [_]); [apply behaves_i2c_start|].
  apply (behaves_seq _ _ [_]); [apply behaves_i2c_write|].
  apply (behaves_seq _ _ [_; _; _; _; _] [_; _]).
  - repeat (apply (behaves_seq _ _ [_]); [apply behaves_i2c_write|]).
    apply behaves_skip.
  - apply (behaves_seq _ _ [_] [_]);
      [apply behaves_i2c_write | apply behaves_i2c_stop].
Qed.

Lemma behaves_oled_set_cursor col row :
  behaves MSTATUS (oled_set_cursor MSTATUS col row)
          (command_events (u8 (0xB0 + row)) ++
           command_events (u8 (0x00 + Z.land col 0x0F)) ++
           command_events (u8 (0x10 + Z.land (Z.shiftr col 4) 0x0F))).
Proof.
  unfold oled_set_cursor.
  repeat (apply behaves_seq; [apply behaves_oled_command|]).
  apply behaves_oled_command.
Qed.

Lemma behaves_oled_init :
  behaves MSTATUS (oled_init MSTATUS) (flat_map command_events init_sequence).
Proof.
  unfold oled_init.
  repeat (apply (behaves_seq _ _ (command_events _));
          [apply behaves_oled_command|]).
  apply (behaves_ext _ (command_events OLED_CMD_DISPLAY_ON));
    [reflexivity | apply behaves_oled_command].
Qed.

Lemma behaves_oled_write_string str :
  behaves MSTATUS (oled_write_string MSTATUS beyond str)
          (flat_map (char_events beyond) (until_nul str)).
Proof.
  induction str as [|c rest IH]; simpl.
  - apply behaves_skip.
  - destruct (c =? 0); [apply behaves_skip|].
    change (flat_map (char_events beyond) (c :: until_nul rest))
      with (char_events beyond c ++
            flat_map (char_events beyond) (until_nul rest)).
    apply behaves_seq; [apply behaves_oled_write_char | exact IH].
Qed.

End Proofs.

(** ** Transactions *)

Lemma parse_app l1 : forall cur t1 l2 t2,
  parse cur l1 = Some t1 -> parse None l2 = Some t2 ->
  parse cur (l1 ++ l2) = Some (t1 ++ t2).
Proof.
  induction l1 as [|e l1 IH]; intros cur t1 l2 t2 H1 H2.
  - destruct cur; [discriminate|]. simpl in H1. now inversion H1; subst.
  - destruct e as [v|v|v], cur as [t|]; simpl in *; try discriminate.
    + now apply IH.
    + now apply IH.
    + destruct (v =? TWI_MCMD_STOP_gc); [|discriminate].
      destruct (parse None l1) as [ts|] eqn:E; [|discriminate].
      simpl in H1. inversion H1; subst.
      now rewrite (IH None ts l2 t2 E H2).
Qed.

Lemma transactions_app l1 l2 t1 t2 :
  transactions l1 = Some t1 -> transactions l2 = Some t2 ->
  transactions (l1 ++ l2) = Some (t1 ++ t2).
Proof. apply parse_app. Qed.

Lemma parse_data_bytes bs : forall t,
  parse (Some t) (List.map WrMDATA bs ++ [WrMCTRLB TWI_MCMD_STOP_gc]) =
  Some [mkTxn (t_addr t) (t_read t) (t_bytes t ++ bs)].
Proof.
  induction bs as [|b bs IH]; intro t; simpl.
  - rewrite app_nil_r. now destruct t.
  - rewrite IH. simpl. now rewrite <- app_assoc.
Qed.

Lemma transactions_command_events cmd :
  transactions (command_events cmd) = Some [command_txn cmd].
Proof. reflexivity. Qed.

Lemma transactions_data_events bytes :
  transactions (data_events bytes) = Some [data_txn bytes].
Proof.
  unfold transactions, data_events.
  change (parse None (WrMADDR 0x78 :: WrMDATA 0x40 ::
                      List.map WrMDATA bytes ++ [WrMCTRLB TWI_MCMD_STOP_gc]))
    with (parse (Some (mkTxn OLED_ADDR false [0x40]))
                (List.map WrMDATA bytes ++ [WrMCTRLB TWI_MCMD_STOP_gc])).
  now rewrite parse_data_bytes.
Qed.

Lemma transactions_flat_map {A} (f : A -> list event) (g : A -> txn) l :
  (forall x, transactions (f x) = Some [g x]) ->
  transactions (flat_map f l) = Some (List.map g l).
Proof.
  intro H. induction l as [|x l IH]; [reflexivity|].
  simpl. now apply (transactions_app _ _ [g x]).
Qed.

Lemma closes_bus_of_emits (p : prog) evs ts' :
  emits p evs -> transactions evs = Some ts' -> closes_bus p.
Proof.
  intros E T fuel s s' ts Hs Hp. exists ts'.
  rewrite (E _ _ _ Hp). now apply transactions_app.
Qed.

Lemma transactions_char_events beyond c :
  transactions (char_events beyond c) = Some [data_txn (glyph beyond c ++ [0])].
Proof. apply transactions_data_events. Qed.

(** ** Bytes *)

Lemma land_nibble x : 0 <= Z.land x 0x0F <= 0x0F.
Proof.
  assert (E : Z.land x 0x0F = x mod 16).
  { change 0x0F with (Z.ones 4). now rewrite Z.land_ones by lia. }
  rewrite E. pose proof (Z.mod_pos_bound x 16). lia.
Qed.

Lemma u8_small x : 0 <= x < 256 -> u8 x = x.
Proof. intro H. unfold u8. now apply Z.mod_small. Qed.

Lemma u8_range x : 0 <= u8 x < 256.
Proof. unfold u8. apply Z.mod_pos_bound. lia. Qed.

(** * The command channel *)

(** C7. For every opcode byte [cmd], [oled_command cmd] performs exactly
    one bus transaction: a start addressed to the device (address byte
    [0x78], that is the 7-bit address [0x3C] with the write bit), the
    command control byte [0x00], the opcode, then the stop command; the
    four register writes read as the single transaction
    [(0x3C, write, [0x00; cmd])]. Whenever the routine returns it has
    written exactly these, and on responsive hardware it returns. *)
Theorem oled_command_one_transaction (MSTATUS : nat -> Z) (cmd : Z) :
  emits (oled_command MSTATUS cmd)
        [WrMADDR 0x78; WrMDATA 0x00; WrMDATA cmd; WrMCTRLB TWI_MCMD_STOP_gc] /\
  transactions
    [WrMADDR 0x78; WrMDATA 0x00; WrMDATA cmd; WrMCTRLB TWI_MCMD_STOP_gc] =
    Some [mkTxn OLED_ADDR false [0x00; cmd]] /\
  (responsive MSTATUS -> completes (oled_command MSTATUS cmd)).
Proof.
  destruct (behaves_oled_command MSTATUS cmd) as (_ & E & C).
  repeat split; [exact E | exact C].
Qed.

Lemma oled_command_one_transaction_witness :
  responsive always_ready /\
  (exists s', oled_command always_ready 0xAE 1%nat twi_reset = Some s' /\
              log s' = [WrMADDR 0x78; WrMDATA 0x00; WrMDATA 0xAE;
                        WrMCTRLB TWI_MCMD_STOP_gc]) /\
  completes (oled_command always_ready 0xAE).
Proof.
  destruct (oled_command_one_transaction always_ready 0xAE) as (E & _ & C).
  split; [exact always_ready_responsive|]. split.
  - eexists. split; [vm_compute; reflexivity|].
    apply (E 1%nat twi_reset). vm_compute; reflexivity.
  - apply C. exact always_ready_responsive.
Defined.

(** * Transactions are closed *)

(** The property has content: a start alone leaves the bus open. *)
Remark i2c_start_leaves_bus_open :
  ~ closes_bus (i2c_start always_ready OLED_ADDR).
Proof.
  intro H.
  destruct (H 1%nat twi_reset (mkTwi [WrMADDR 0x78] 1) [] eq_refl eq_refl)
    as (ts' & E).
  discriminate E.
Qed.

Lemma transactional_of_behaves MSTATUS (p : prog) evs ts' :
  behaves MSTATUS p evs -> transactions evs = Some ts' ->
  transactional MSTATUS p.
Proof.
  intros (_ & E & C) T. split; [|exact C].
  eapply closes_bus_of_emits; eassumption.
Qed.

(** C8. Each of [oled_command], [oled_write_char], [oled_set_cursor],
    [oled_write_string] and [oled_init] closes every transaction it opens
    before it returns: entered with a log that reads as whole transactions
    (bus idle), it returns with the log extended by whole transactions, so
    no start is issued while a transaction is open and none is left open at
    return; on responsive hardware each of them does return, so every
    transaction begun reaches its stop. *)
Theorem transactions_closed_before_return
    (MSTATUS : nat -> Z) (beyond : Z -> Z) :
  (forall cmd, transactional MSTATUS (oled_command MSTATUS cmd)) /\
  (forall c, transactional MSTATUS (oled_write_char MSTATUS beyond c)) /\
  (forall col row, transactional MSTATUS (oled_set_cursor MSTATUS col row)) /\
  (forall str, transactional MSTATUS (oled_write_string MSTATUS beyond str)) /\
  transactional MSTATUS (oled_init MSTATUS).
Proof.
  split; [|split; [|split; [|split]]]; intros.
  - eapply transactional_of_behaves;
      [apply behaves_oled_command | apply transactions_command_events].
  - eapply transactional_of_behaves;
      [apply behaves_oled_write_char | apply transactions_char_events].
  - eapply transactional_of_behaves;
      [apply behaves_oled_set_cursor | reflexivity].
  - eapply transactional_of_behaves; [apply behaves_oled_write_string|].
    apply transactions_flat_map, transactions_char_events.
  - eapply transactional_of_behaves; [apply behaves_oled_init|].
    apply transactions_flat_map, transactions_command_events.
Qed.

Lemma transactions_closed_before_return_witness :
  transactions (log twi_reset) = Some [] /\
  responsive always_ready /\
  (exists s', oled_set_cursor always_ready 0 1 1%nat twi_reset = Some s' /\
              exists ts', transactions (log s') = Some ([] ++ ts')) /\
  completes (oled_set_cursor always_ready 0 1).
Proof.
  destruct (transactions_closed_before_return always_ready erased)
    as (_ & _ & H & _).
  destruct (H 0 1) as (Hc & Hr).
  split; [reflexivity|]. split; [exact always_ready_responsive|]. split.
  - eexists. split; [vm_compute; reflexivity|].
    apply (Hc 1%nat twi_reset _ []); vm_compute; reflexivity.
  - apply Hr. exact always_ready_responsive.
Defined.

(** * The wait loops *)

Lemma after_store_wait MSTATUS e fuel s :
  (store e ;; wait_wif MSTATUS) fuel s =
  wait_wif MSTATUS fuel (mkTwi (log s ++ [e]) (polls s)).
Proof. reflexivity. Qed.

(** C9. The waits of [i2c_start] and [i2c_write] spin on the
    write-interrupt flag without bound: from a state in which [polls s]
    loads of MSTATUS have been made, the routine returns (for some number
    of iterations) exactly when some load from then on sees the flag set,
    and it returns for no number of iterations exactly when no such load
    ever does. *)
Theorem wait_loops_unbounded (MSTATUS : nat -> Z) (address data : Z) (s : twi) :
  ((exists fuel s', i2c_start MSTATUS address fuel s = Some s') <->
   (exists m, (polls s <= m)%nat /\ wif_set (MSTATUS m))) /\
  ((forall fuel, i2c_start MSTATUS address fuel s = None) <->
   (forall m, (polls s <= m)%nat -> ~ wif_set (MSTATUS m))) /\
  ((exists fuel s', i2c_write MSTATUS data fuel s = Some s') <->
   (exists m, (polls s <= m)%nat /\ wif_set (MSTATUS m))) /\
  ((forall fuel, i2c_write MSTATUS data fuel s = None) <->
   (forall m, (polls s <= m)%nat -> ~ wif_set (MSTATUS m))).
Proof.
  unfold i2c_start, i2c_write.
  set (sa := mkTwi (log s ++ [WrMADDR (u8 (Z.shiftl address 1))]) (polls s)).
  set (sd := mkTwi (log s ++ [WrMDATA data]) (polls s)).
  pose proof (wait_terminates_iff MSTATUS sa) as Ta.
  pose proof (wait_hangs_iff MSTATUS sa) as Ha.
  pose proof (wait_terminates_iff MSTATUS sd) as Td.
  pose proof (wait_hangs_iff MSTATUS sd) as Hd.
  split; [exact Ta | split; [|split]].
  - split; intros H.
    + apply Ha. intro fuel. apply (H fuel).
    + intro fuel. rewrite after_store_wait. now apply Ha.
  - exact Td.
  - split; intros H.
    + apply Hd. intro fuel. apply (H fuel).
    + intro fuel. rewrite after_store_wait. now apply Hd.
Qed.

Lemma wait_loops_unbounded_witness :
  (exists m, (polls twi_reset <= m)%nat /\ wif_set (always_ready m)) /\
  (exists fuel s', i2c_write always_ready 0x40 fuel twi_reset = Some s') /\
  (forall m, (polls twi_reset <= m)%nat -> ~ wif_set (never_ready m)) /\
  (forall fuel, i2c_start never_ready OLED_ADDR fuel twi_reset = None).
Proof.
  assert (R : exists m, (polls twi_reset <= m)%nat /\ wif_set (always_ready m)).
  { exists O. split; [simpl; lia | discriminate]. }
  assert (N : forall m, (polls twi_reset <= m)%nat -> ~ wif_set (never_ready m)).
  { intros m _. apply never_ready_stuck. }
  split; [exact R|]. split; [|split; [exact N|]].
  - apply (proj2 (proj1 (proj2 (proj2
             (wait_loops_unbounded always_ready OLED_ADDR 0x40 twi_reset))))).
    exact R.
  - apply (proj2 (proj1 (proj2
             (wait_loops_unbounded never_ready OLED_ADDR 0x40 twi_reset)))).
    exact N.
Defined.

(** * The bring-up sequence *)

(** C3, as stated, fails: on hardware that answers at once [oled_init]
    run from reset performs 23 command transactions, not 22. *)
Lemma oled_init_not_22_commands :
  (exists s' ts, oled_init always_ready 1%nat twi_reset = Some s' /\
                 transactions (log s') = Some ts /\ List.length ts = 23%nat) /\
  ~ (exists s' ts, oled_init always_ready 1%nat twi_reset = Some s' /\
                   transactions (log s') = Some ts /\ List.length ts = 22%nat).
Proof.
  split.
  - eexists. eexists. split; [vm_compute; reflexivity|].
    split; vm_compute; reflexivity.
  - intros (s' & ts & H1 & H2 & H3).
    vm_compute in H1. inversion H1; subst s'; clear H1.
    vm_compute in H2. inversion H2; subst ts; clear H2.
    discriminate H3.
Qed.

(** C3 (amended). [oled_init] emits exactly 23 command transactions, one
    byte each, in this order: display off [AE]; clock divider [D5 80];
    multiplex ratio [A8 1F] (height - 1 of a 32-row panel); display offset
    [D3 00]; start line [40]; charge pump [8D 14]; memory addressing mode
    with mode byte zero [20 00]; segment remap
    [A1]; COM scan direction [C8]; contrast [81 8F]; pre-charge [D9 F1];
    VCOM deselect [DB 40]; all pixels follow RAM [A4]; normal polarity
    [A6]; display on [AF]. Whenever it returns it has written exactly
    these, and on responsive hardware it returns. *)
Theorem oled_init_sequence (MSTATUS : nat -> Z) :
  let bytes :=
    [ 0xAE; 0xD5; 0x80; 0xA8; 0x1F; 0xD3; 0x00; 0x40; 0x8D; 0x14; 0x20; 0x00;
      0xA1; 0xC8; 0x81; 0x8F; 0xD9; 0xF1; 0xDB; 0x40; 0xA4; 0xA6; 0xAF ] in
  List.length bytes = 23%nat /\
  emits (oled_init MSTATUS) (flat_map command_events bytes) /\
  transactions (flat_map command_events bytes) =
    Some (List.map command_txn bytes) /\
  (responsive MSTATUS -> completes (oled_init MSTATUS)).
Proof.
  destruct (behaves_oled_init MSTATUS) as (_ & E & C).
  repeat split; [exact E | exact C].
Qed.

Lemma oled_init_sequence_witness :
  responsive always_ready /\
  completes (oled_init always_ready) /\
  exists s', oled_init always_ready 1%nat twi_reset = Some s' /\
             transactions (log s') =
             Some (List.map command_txn
               [ 0xAE; 0xD5; 0x80; 0xA8; 0x1F; 0xD3; 0x00; 0x40; 0x8D; 0x14;
                 0x20; 0x00; 0xA1; 0xC8; 0x81; 0x8F; 0xD9; 0xF1; 0xDB; 0x40;
                 0xA4; 0xA6; 0xAF ]).
Proof.
  destruct (oled_init_sequence always_ready) as (_ & E & T & C).
  split; [exact always_ready_responsive|]. split.
  - apply C. exact always_ready_responsive.
  - eexists. split; [vm_compute; reflexivity|].
    rewrite (E 1%nat twi_reset) by (vm_compute; reflexivity). exact T.
Defined.

(** * Cursor addressing *)

(** C10. For every column argument, [oled_set_cursor] sends after the page
    command the two bytes [col & 0x0F] and [0x10 + ((col >> 4) & 0x0F)],
    each in a command transaction of its own; the first lies in
    [0x00..0x0F], the second in [0x10..0x1F], for a column in [0..255]
    they are its two nibbles, and neither equals any OLED_CMD_ opcode nor
    any page-select opcode [0xB0 + r], [r] in [0..7]. Whenever the routine
    returns it has written exactly these three transactions, and on
    responsive hardware it returns. *)
Theorem set_cursor_column_nibbles (MSTATUS : nat -> Z) (col row : Z) :
  let lo := Z.land col 0x0F in
  let hi := 0x10 + Z.land (Z.shiftr col 4) 0x0F in
  emits (oled_set_cursor MSTATUS col row)
        (command_events (u8 (0xB0 + row)) ++
         command_events lo ++ command_events hi) /\
  0x00 <= lo <= 0x0F /\
  0x10 <= hi <= 0x1F /\
  (0 <= col < 256 -> col = 16 * (hi - 0x10) + lo) /\
  (forall op, In op controller_opcodes -> lo <> op /\ hi <> op) /\
  (forall r, 0 <= r <= 7 -> lo <> 0xB0 + r /\ hi <> 0xB0 + r) /\
  transactions (command_events (u8 (0xB0 + row)) ++
                command_events lo ++ command_events hi) =
    Some [command_txn (u8 (0xB0 + row)); command_txn lo; command_txn hi] /\
  (responsive MSTATUS ->
   forall s, exists fuel s',
     oled_set_cursor MSTATUS col row fuel s = Some s' /\
     log s' = log s ++ command_events (u8 (0xB0 + row)) ++
                       command_events lo ++ command_events hi).
Proof.
  intros lo hi.
  assert (Hlo : 0 <= lo <= 0x0F) by apply land_nibble.
  assert (Hn : 0 <= Z.land (Z.shiftr col 4) 0x0F <= 0x0F) by apply land_nibble.
  assert (Hhi : 0x10 <= hi <= 0x1F) by (unfold hi; lia).
  assert (E : emits (oled_set_cursor MSTATUS col row)
                    (command_events (u8 (0xB0 + row)) ++
                     command_events lo ++ command_events hi)).
  { destruct (behaves_oled_set_cursor MSTATUS col row) as (_ & E & _).
    revert E. change (0x00 + Z.land col 0x0F) with lo.
    fold hi. rewrite (u8_small lo), (u8_small hi) by lia. exact (fun E => E). }
  split; [exact E|].
  split; [exact Hlo | split; [exact Hhi | split; [|split; [|split; [|split]]]]].
  - intro Hc. unfold hi, lo.
    change 0x0F with (Z.ones 4). rewrite !Z.land_ones by lia.
    rewrite Z.shiftr_div_pow2 by lia. change (2 ^ 4) with 16.
    rewrite (Z.mod_small (col / 16) 16).
    + rewrite (Z.div_mod col 16) at 1 by lia. lia.
    + split; [apply Z.div_pos; lia | apply Z.div_lt_upper_bound; lia].
  - intros op Hop. simpl in Hop.
    repeat (destruct Hop as [<- | Hop];
            [ unfold OLED_CMD_DISPLAY_OFF, OLED_CMD_DISPLAY_ON,
                OLED_CMD_SET_DISPLAY_CLOCK_DIV, OLED_CMD_SET_MULTIPLEX,
                OLED_CMD_SET_DISPLAY_OFFSET, OLED_CMD_SET_START_LINE,
                OLED_CMD_CHARGE_PUMP, OLED_CMD_MEMORY_MODE, OLED_CMD_SEG_REMAP,
                OLED_CMD_COM_SCAN_DEC, OLED_CMD_SET_CONTRAST,
                OLED_CMD_PRECHARGE, OLED_CMD_SETVCOMDETECT,
                OLED_CMD_DISPLAY_ALL_ON_RESUME, OLED_CMD_NORMAL_DISPLAY; lia |]).
    contradiction.
  - intros r Hr. lia.
  - reflexivity.
  - intros R s.
    destruct (behaves_oled_set_cursor MSTATUS col row) as (_ & _ & C).
    destruct (C R s) as (fuel & s' & Hs). exists fuel, s'.
    split; [exact Hs | exact (E _ _ _ Hs)].
Qed.

Lemma set_cursor_column_nibbles_witness :
  (0 <= 200 < 256) /\ In OLED_CMD_MEMORY_MODE controller_opcodes /\
  (0 <= 3 <= 7) /\ responsive always_ready /\
  200 = 16 * (0x10 + Z.land (Z.shiftr 200 4) 0x0F - 0x10) + Z.land 200 0x0F /\
  Z.land 200 0x0F <> OLED_CMD_MEMORY_MODE /\
  0x10 + Z.land (Z.shiftr 200 4) 0x0F <> 0xB0 + 3 /\
  (exists s',
      oled_set_cursor always_ready 200 3 1%nat twi_reset = Some s' /\
      transactions (log s') =
        Some [command_txn 0xB3; command_txn 0x08; command_txn 0x1C]) /\
  (exists fuel s',
      oled_set_cursor always_ready 200 3 fuel twi_reset = Some s' /\
      log s' = command_events 0xB3 ++ command_events 0x08 ++
               command_events 0x1C).
Proof.
  destruct (set_cursor_column_nibbles always_ready 200 3)
    as (E & _ & _ & Hc & Hop & Hr & T & C).
  assert (I : In OLED_CMD_MEMORY_MODE controller_opcodes)
    by (simpl; tauto).
  split; [lia|]. split; [exact I|]. split; [lia|].
  split; [exact always_ready_responsive|].
  split; [|split; [|split; [|split]]].
  - apply Hc. lia.
  - apply (Hop _ I).
  - apply (Hr 3). lia.
  - eexists. split; [vm_compute; reflexivity|].
    rewrite (E 1%nat twi_reset) by (vm_compute; reflexivity). exact T.
  - apply (C always_ready_responsive twi_reset).
Defined.

(** * Glyph lookup *)

Lemma supported_cases c :
  supported c ->
  c = 32 \/ c = 33 \/ c = 34 \/ c = 35 \/ c = 36 \/ c = 37 \/
  c = 38 \/ c = 39 \/ c = 40 \/ c = 41 \/ c = 42 \/ c = 43.
Proof. unfold supported, font_rows. simpl. lia. Qed.

Lemma glyph_supported beyond c :
  supported c -> glyph beyond c = nth (Z.to_nat (c - 32)) font [].
Proof.
  intro H. apply supported_cases in H.
  repeat (destruct H as [-> | H]; [reflexivity|]). now subst.
Qed.

Lemma glyph_length beyond c : List.length (glyph beyond c) = 5%nat.
Proof. reflexivity. Qed.

Lemma pgm_read_byte_range beyond off : 0 <= pgm_read_byte beyond off < 256.
Proof.
  unfold pgm_read_byte. destruct (in_table off) eqn:E; [|apply u8_range].
  unfold in_table, font_size in E. simpl in E.
  apply andb_true_iff in E. destruct E as (E1 & E2).
  apply Z.leb_le in E1. apply Z.ltb_lt in E2.
  assert (H : exists n, (n < 60)%nat /\ Z.to_nat off = n)
    by (exists (Z.to_nat off); split; [lia | reflexivity]).
  destruct H as (n & Hn & ->).
  do 60 (destruct n as [|n]; [simpl; lia|]). lia.
Qed.

Lemma glyph_bytes beyond c : Forall (fun b => 0 <= b < 256) (glyph beyond c).
Proof.
  unfold glyph. apply Forall_map, Forall_forall. intros i _.
  apply pgm_read_byte_range.
Qed.

Lemma unsupported_outside_table c i :
  ~ supported c -> 0 <= i < 5 -> in_table (font_offset (c - 32) i) = false.
Proof.
  unfold supported, font_rows, in_table, font_size, font_offset.
  change (Z.of_nat (List.length font)) with 12.
  change (Z.of_nat (List.length font_bytes)) with 60.
  intros H Hi. apply andb_false_iff.
  destruct (Z_lt_le_dec c 32).
  - left. apply Z.leb_gt. lia.
  - right. apply Z.ltb_ge. lia.
Qed.

Lemma glyph_unsupported beyond c :
  ~ supported c ->
  glyph beyond c =
  List.map (fun i => u8 (beyond (font_offset (c - 32) i))) [0; 1; 2; 3; 4].
Proof.
  intro H. unfold glyph, pgm_read_byte. simpl.
  now rewrite !(unsupported_outside_table c) by (assumption || lia).
Qed.

Lemma supported_in_table c i :
  supported c -> 0 <= i < 5 -> in_table (font_offset (c - 32) i) = true.
Proof.
  unfold supported, font_rows, in_table, font_size, font_offset.
  change (Z.of_nat (List.length font)) with 12.
  change (Z.of_nat (List.length font_bytes)) with 60.
  intros H Hi. apply andb_true_iff. split; [apply Z.leb_le | apply Z.ltb_lt]; lia.
Qed.

Lemma pgm_read_in_table b1 b2 off :
  in_table off = true -> pgm_read_byte b1 off = pgm_read_byte b2 off.
Proof. intro H. unfold pgm_read_byte. now rewrite H. Qed.

Lemma write_char_supported_indep M b1 b2 c :
  supported c ->
  forall fuel s, oled_write_char M b1 c fuel s = oled_write_char M b2 c fuel s.
Proof.
  intros H fuel s. unfold oled_write_char. cbn [for_upto].
  change (0 + 1) with 1. change (1 + 1) with 2. change (2 + 1) with 3.
  change (3 + 1) with 4.
  now rewrite !(pgm_read_in_table b1 b2)
    by (apply supported_in_table; [assumption | lia]).
Qed.

(** C5. For every character code [c] in [32, 32 + N), [N = 12] the number
    of rows of [font], the lookup of [oled_write_char] yields exactly five
    bytes, the row [c - 32] of the table: the routine sends them, then a
    zero, in one data transaction. The result depends on nothing but [c]
    (not on the rest of program memory, not on the bus state), and two
    calls in a row send the same five bytes. Whenever the routine returns
    it has written exactly this, and on responsive hardware it returns. *)
Theorem glyph_supported_five_bytes
    (MSTATUS : nat -> Z) (beyond : Z -> Z) (c : Z) :
  32 <= c < 32 + font_rows ->
  let cols := nth (Z.to_nat (c - 32)) font [] in
  font_rows = 12 /\
  glyph beyond c = cols /\
  List.length (glyph beyond c) = 5%nat /\
  Forall (fun b => 0 <= b < 256) (glyph beyond c) /\
  (forall beyond', glyph beyond' c = glyph beyond c) /\
  emits (oled_write_char MSTATUS beyond c ;; oled_write_char MSTATUS beyond c)
        (data_events (glyph beyond c ++ [0x00]) ++
         data_events (glyph beyond c ++ [0x00])) /\
  List.length cols = 5%nat /\
  emits (oled_write_char MSTATUS beyond c) (data_events (cols ++ [0x00])) /\
  transactions (data_events (cols ++ [0x00])) =
    Some [data_txn (cols ++ [0x00])] /\
  (forall beyond' fuel s,
      oled_write_char MSTATUS beyond' c fuel s =
      oled_write_char MSTATUS beyond c fuel s) /\
  (responsive MSTATUS ->
   forall s, exists fuel s',
     oled_write_char MSTATUS beyond c fuel s = Some s' /\
     log s' = log s ++ data_events (cols ++ [0x00])) /\
  (responsive MSTATUS ->
   forall s, exists fuel s',
     (oled_write_char MSTATUS beyond c ;; oled_write_char MSTATUS beyond c)
       fuel s = Some s' /\
     log s' = log s ++ data_events (cols ++ [0x00]) ++
                       data_events (cols ++ [0x00])).
Proof.
  intros H cols.
  assert (G : glyph beyond c = cols) by now apply glyph_supported.
  pose proof (behaves_oled_write_char MSTATUS beyond c) as B.
  unfold char_events in B.
  pose proof (behaves_seq MSTATUS _ _ _ _ B B) as B2.
  destruct B as (_ & E & C). destruct B2 as (_ & E2 & C2).
  split; [reflexivity|]. split; [exact G|].
  split; [apply glyph_length|]. split; [apply glyph_bytes|].
  split; [intro b'; now rewrite !glyph_supported|].
  split; [exact E2|].
  rewrite G in E, E2.
  split; [rewrite <- G; apply glyph_length|].
  split; [exact E|]. split; [apply transactions_data_events|].
  split; [intros b' fuel s; now apply write_char_supported_indep|].
  split; intros R s.
  - destruct (C R s) as (fuel & s' & Hs). exists fuel, s'.
    split; [exact Hs | exact (E _ _ _ Hs)].
  - destruct (C2 R s) as (fuel & s' & Hs). exists fuel, s'.
    split; [exact Hs | exact (E2 _ _ _ Hs)].
Qed.

Lemma glyph_supported_five_bytes_witness :
  32 <= 33 < 32 + font_rows /\
  responsive always_ready /\
  glyph erased 33 = [0x00; 0x00; 0x5F; 0x00; 0x00] /\
  glyph (fun _ => 0) 33 = glyph erased 33 /\
  (exists s',
      (oled_write_char always_ready erased 33 ;;
       oled_write_char always_ready erased 33) 1%nat twi_reset = Some s' /\
      transactions (log s') =
        Some [data_txn [0x00; 0x00; 0x5F; 0x00; 0x00; 0x00];
              data_txn [0x00; 0x00; 0x5F; 0x00; 0x00; 0x00]]) /\
  (exists fuel s',
      oled_write_char always_ready (fun _ => 0) 33 fuel twi_reset = Some s' /\
      log s' = data_events [0x00; 0x00; 0x5F; 0x00; 0x00; 0x00]).
Proof.
  assert (H : 32 <= 33 < 32 + font_rows)
    by (vm_compute; split; [discriminate | reflexivity]).
  destruct (glyph_supported_five_bytes always_ready erased 33 H)
    as (_ & G & _ & _ & I & E2 & _).
  destruct (glyph_supported_five_bytes always_ready (fun _ => 0) 33 H)
    as (_ & _ & _ & _ & _ & _ & _ & _ & _ & _ & T & _).
  split; [exact H|]. split; [exact always_ready_responsive|].
  split; [exact G|]. split; [apply I|]. split.
  - eexists. split; [vm_compute; reflexivity|].
    rewrite (E2 1%nat twi_reset) by (vm_compute; reflexivity).
    vm_compute; reflexivity.
  - apply (T always_ready_responsive twi_reset).
Defined.

(** * Writing characters *)

(** C4. For every column, row and supported character,
    [oled_set_cursor col row] followed by [oled_write_char c] performs
    exactly three command transactions, carrying the page select
    [0xB0 + row] (as a byte), the low column nibble and [0x10] plus the
    high column nibble, and then exactly one data transaction whose six
    payload bytes are the five bytes of the glyph and one zero byte. *)
Theorem set_cursor_then_write_char
    (MSTATUS : nat -> Z) (beyond : Z -> Z) (col row c : Z) :
  supported c ->
  let p := oled_set_cursor MSTATUS col row ;; oled_write_char MSTATUS beyond c in
  let page := u8 (0xB0 + row) in
  let lo := Z.land col 0x0F in
  let hi := 0x10 + Z.land (Z.shiftr col 4) 0x0F in
  let cols := nth (Z.to_nat (c - 32)) font [] in
  let evs := command_events page ++ command_events lo ++ command_events hi ++
             data_events (cols ++ [0x00]) in
  emits p evs /\
  transactions evs =
    Some [command_txn page; command_txn lo; command_txn hi;
          data_txn (cols ++ [0x00])] /\
  List.length cols = 5%nat /\
  List.length (payload (data_txn (cols ++ [0x00]))) = 6%nat /\
  (0 <= row <= 0x4F -> page = 0xB0 + row) /\
  (responsive MSTATUS -> completes p).
Proof.
  intros H p page lo hi cols evs.
  assert (G : glyph beyond c = cols) by now apply glyph_supported.
  assert (L : List.length cols = 5%nat) by (rewrite <- G; apply glyph_length).
  pose proof (behaves_seq MSTATUS _ _ _ _
                (behaves_oled_set_cursor MSTATUS col row)
                (behaves_oled_write_char MSTATUS beyond c)) as B.
  unfold char_events in B. rewrite G in B.
  change (0x00 + Z.land col 0x0F) with lo in B. fold hi page in B.
  pose proof (land_nibble col) as Hlo.
  pose proof (land_nibble (Z.shiftr col 4)) as Hhi.
  rewrite (u8_small lo), (u8_small hi) in B by (unfold lo, hi; lia).
  rewrite <- !app_assoc in B. destruct B as (_ & E & C).
  split; [exact E|]. split; [|split; [exact L|split; [|split; [|exact C]]]].
  - unfold evs. rewrite !app_assoc.
    apply (transactions_app _ _ [_; _; _] [_]);
      [reflexivity | apply transactions_data_events].
  - unfold payload, data_txn. simpl. rewrite length_app, L. reflexivity.
  - intro Hr. apply u8_small. lia.
Qed.

Lemma set_cursor_then_write_char_witness :
  supported 33 /\
  exists s',
    (oled_set_cursor always_ready 0 1 ;; oled_write_char always_ready erased 33)
      1%nat twi_reset = Some s' /\
    transactions (log s') =
      Some [command_txn 0xB1; command_txn 0x00; command_txn 0x10;
            data_txn [0x00; 0x00; 0x5F; 0x00; 0x00; 0x00]].
Proof.
  assert (H : supported 33) by (vm_compute; split; [discriminate | reflexivity]).
  destruct (set_cursor_then_write_char always_ready erased 0 1 33 H)
    as (E & T & _).
  split; [exact H|]. eexists. split; [vm_compute; reflexivity|].
  rewrite (E 1%nat twi_reset) by (vm_compute; reflexivity). exact T.
Defined.

(** * Writing strings *)

Lemma until_nul_nonzero str :
  Forall (fun c => c <> 0) str -> until_nul str = str.
Proof.
  induction 1 as [|c rest Hc _ IH]; [reflexivity|].
  simpl. destruct (Z.eqb_spec c 0); [contradiction | now rewrite IH].
Qed.

Lemma byte_stream_data_txns {A} (f : A -> list Z) l :
  byte_stream (List.map (fun x => data_txn (f x)) l) = flat_map f l.
Proof.
  induction l as [|x l IH]; [reflexivity|].
  change (byte_stream (List.map (fun x => data_txn (f x)) (x :: l)))
    with (f x ++ byte_stream (List.map (fun x => data_txn (f x)) l)).
  now rewrite IH.
Qed.

Lemma length_char_payloads beyond str :
  List.length (flat_map (fun c => glyph beyond c ++ [0x00]) str) =
  (6 * List.length str)%nat.
Proof.
  induction str as [|c rest IH]; [reflexivity|].
  change (flat_map (fun c => glyph beyond c ++ [0x00]) (c :: rest))
    with ((glyph beyond c ++ [0x00]) ++
          flat_map (fun c => glyph beyond c ++ [0x00]) rest).
  rewrite length_app, IH, length_app, glyph_length. simpl. lia.
Qed.

(** C6. For every string of digit characters, [oled_write_string] performs
    one data transaction per character and nothing else (no cursor
    command, so no line wrap), in the order of the string; the data bytes
    sent are the six-byte blocks of the characters in order (the five bytes
    looked up for the character, then a zero), [6 * len] bytes in all.
    Whenever the routine returns it has written exactly these, and on
    responsive hardware it returns. *)
Theorem digit_string_stream_length
    (MSTATUS : nat -> Z) (beyond : Z -> Z) (str : list Z) :
  Forall is_digit str ->
  let evs := flat_map (char_events beyond) str in
  let ts := List.map (fun c => data_txn (glyph beyond c ++ [0x00])) str in
  emits (oled_write_string MSTATUS beyond str) evs /\
  transactions evs = Some ts /\
  byte_stream ts = flat_map (fun c => glyph beyond c ++ [0x00]) str /\
  List.length (byte_stream ts) = (6 * List.length str)%nat /\
  (responsive MSTATUS -> completes (oled_write_string MSTATUS beyond str)).
Proof.
  intros D evs ts.
  assert (U : until_nul str = str).
  { apply until_nul_nonzero. eapply Forall_impl; [|exact D].
    unfold is_digit. intros c Hc. lia. }
  destruct (behaves_oled_write_string MSTATUS beyond str) as (_ & E & C).
  rewrite U in E.
  split; [exact E|]. split; [|split; [|split; [|exact C]]].
  - apply transactions_flat_map, transactions_char_events.
  - apply byte_stream_data_txns.
  - unfold ts. rewrite byte_stream_data_txns. apply length_char_payloads.
Qed.

Lemma digit_string_stream_length_witness :
  Forall is_digit (c_str "25") /\
  exists s' ts,
    oled_write_string always_ready erased (c_str "25") 1%nat twi_reset =
      Some s' /\
    transactions (log s') = Some ts /\
    List.length (byte_stream ts) = (6 * List.length (c_str "25"))%nat.
Proof.
  assert (D : Forall is_digit (c_str "25")).
  { repeat constructor; vm_compute; discriminate. }
  destruct (digit_string_stream_length always_ready erased (c_str "25") D)
    as (E & T & _ & L & _).
  split; [exact D|]. eexists. eexists. split; [vm_compute; reflexivity|].
  split; [|exact L].
  rewrite (E 1%nat twi_reset) by (vm_compute; reflexivity). exact T.
Defined.

(** C1. What the code does for the string ["0"]: the character code is 48,
    so the loop reads row [48 - 32 = 16] of the twelve-row table, the five
    bytes at offsets 80 to 84 from [font], all outside the table; the one
    data transaction carries whatever program memory holds there, then a
    zero. The bytes [7C 12 11 12 7C], which the table's comment gives to
    code 48, are row 2 and are sent for code 34. *)
Theorem write_string_zero_reads_past_table
    (MSTATUS : nat -> Z) (beyond : Z -> Z) :
  c_str "0" = [48] /\
  (forall i, 0 <= i < 5 -> in_table (font_offset (48 - 32) i) = false) /\
  emits (oled_write_string MSTATUS beyond (c_str "0"))
        (data_events [u8 (beyond 80); u8 (beyond 81); u8 (beyond 82);
                      u8 (beyond 83); u8 (beyond 84); 0x00]) /\
  nth 2 font [] = [0x7C; 0x12; 0x11; 0x12; 0x7C] /\
  emits (oled_write_string MSTATUS beyond [34])
        (data_events [0x7C; 0x12; 0x11; 0x12; 0x7C; 0x00]).
Proof.
  split; [reflexivity|]. split; [|split; [|split; [reflexivity|]]].
  - intros i Hi. apply unsupported_outside_table; [|exact Hi].
    unfold supported, font_rows. simpl. lia.
  - destruct (behaves_oled_write_string MSTATUS beyond (c_str "0"))
      as (_ & E & _).
    revert E. apply emits_ext. reflexivity.
  - destruct (behaves_oled_write_string MSTATUS beyond [34]) as (_ & E & _).
    revert E. apply emits_ext. reflexivity.
Qed.

Lemma write_string_zero_reads_past_table_witness :
  (0 <= 2 < 5) /\
  in_table (font_offset (48 - 32) 2) = false /\
  exists s',
    oled_write_string always_ready erased (c_str "0") 1%nat twi_reset =
      Some s' /\
    transactions (log s') =
      Some [data_txn [0xFF; 0xFF; 0xFF; 0xFF; 0xFF; 0x00]] /\
    byte_stream [data_txn [0xFF; 0xFF; 0xFF; 0xFF; 0xFF; 0x00]] <>
      [0x7C; 0x12; 0x11; 0x12; 0x7C; 0x00].
Proof.
  destruct (write_string_zero_reads_past_table always_ready erased)
    as (_ & O & E & _).
  split; [lia|]. split; [apply O; lia|].
  eexists. split; [vm_compute; reflexivity|]. split; [|discriminate].
  rewrite (E 1%nat twi_reset) by (vm_compute; reflexivity).
  vm_compute; reflexivity.
Defined.

(** * Unsupported characters *)

(** C2, as stated, fails: for the code 84 (the first character that [main]
    writes) [oled_write_char] does not fail but completes a data
    transaction like for any other character, and the five glyph bytes it
    sends are those of the memory next to the table: they change with
    it. *)
Lemma unsupported_char_reads_adjacent_memory :
  ~ supported 84 /\
  (exists s', oled_write_char always_ready (fun _ => 0xAA) 84 1%nat twi_reset =
                Some s' /\
              transactions (log s') =
                Some [data_txn [0xAA; 0xAA; 0xAA; 0xAA; 0xAA; 0x00]]) /\
  (exists s', oled_write_char always_ready (fun _ => 0x55) 84 1%nat twi_reset =
                Some s' /\
              transactions (log s') =
                Some [data_txn [0x55; 0x55; 0x55; 0x55; 0x55; 0x00]]).
Proof.
  split; [|split].
  - unfold supported, font_rows. simpl. lia.
  - eexists. split; vm_compute; reflexivity.
  - eexists. split; vm_compute; reflexivity.
Qed.

(** C2 (amended). The lookup has no range check and no failure result: for
    every character code [c], supported or not, [oled_write_char c] reads
    the five bytes at offsets [5 * (c - 32) + i] from [font] and sends them
    and a zero in one data transaction; whenever it returns it has written
    exactly this, and on responsive hardware it returns. For a code outside
    [32, 32 + 12) each of the five offsets lies outside the table, and the
    bytes sent are those that program memory holds there. *)
Theorem unsupported_char_not_rejected
    (MSTATUS : nat -> Z) (beyond : Z -> Z) (c : Z) :
  ~ (32 <= c < 32 + font_rows) ->
  (forall i, 0 <= i < 5 -> in_table (font_offset (c - 32) i) = false) /\
  glyph beyond c =
    List.map (fun i => u8 (beyond (5 * (c - 32) + i))) [0; 1; 2; 3; 4] /\
  emits (oled_write_char MSTATUS beyond c)
        (data_events (glyph beyond c ++ [0x00])) /\
  transactions (data_events (glyph beyond c ++ [0x00])) =
    Some [data_txn (glyph beyond c ++ [0x00])] /\
  (responsive MSTATUS -> completes (oled_write_char MSTATUS beyond c)).
Proof.
  intro H.
  destruct (behaves_oled_write_char MSTATUS beyond c) as (_ & E & C).
  split; [|split; [|split; [exact E | split; [|exact C]]]].
  - intros i Hi. now apply unsupported_outside_table.
  - now apply glyph_unsupported.
  - apply transactions_data_events.
Qed.

Lemma unsupported_char_not_rejected_witness :
  ~ (32 <= 84 < 32 + font_rows) /\
  responsive always_ready /\
  glyph erased 84 = [0xFF; 0xFF; 0xFF; 0xFF; 0xFF] /\
  completes (oled_write_char always_ready erased 84).
Proof.
  assert (H : ~ (32 <= 84 < 32 + font_rows)).
  { unfold font_rows. simpl. lia. }
  destruct (unsupported_char_not_rejected always_ready erased 84 H)
    as (_ & G & _ & _ & C).
  split; [exact H|]. split; [exact always_ready_responsive|].
  split; [exact G | apply C; exact always_ready_responsive].
Defined.

(** * Further properties of the driver *)

(** ** Where a wait loop leaves *)

Lemma wif_set_dec st : {wif_set st} + {~ wif_set st}.
Proof.
  unfold wif_set. destruct (Z.eq_dec (Z.land st TWI_WIF_bm) 0) as [E|E].
  - right. intro H. now apply H.
  - now left.
Qed.

Lemma first_set_here M n m : wif_set (M n) -> first_set M n m <-> m = n.
Proof.
  intro H. split.
  - intros (Hle & _ & Hfirst).
    destruct (Nat.eq_dec m n) as [E|E]; [exact E|].
    elim (Hfirst n); [lia | exact H].
  - intros ->. repeat split; [lia | exact H | intros k Hk; lia].
Qed.

Lemma first_set_later M n m :
  ~ wif_set (M n) -> first_set M n m <-> first_set M (S n) m.
Proof.
  intro H. split; intros (Hle & Hm & Hfirst).
  - assert (m <> n) by (intros ->; contradiction).
    repeat split; [lia | exact Hm | intros k Hk; apply Hfirst; lia].
  - repeat split; [lia | exact Hm |].
    intros k Hk. destruct (Nat.eq_dec k n) as [->|E]; [exact H|].
    apply Hfirst. lia.
Qed.

Lemma first_set_unique M n m m' :
  first_set M n m -> first_set M n m' -> m = m'.
Proof.
  intros (H1 & H2 & H3) (H1' & H2' & H3').
  destruct (Nat.lt_trichotomy m m') as [L|[E|L]]; [|exact E|].
  - elim (H3' m); [lia | exact H2].
  - elim (H3 m'); [lia | exact H2'].
Qed.

Lemma wait_exact M fuel : forall s s',
  wait_wif M fuel s = Some s' <->
  exists m, first_set M (polls s) m /\ (m - polls s < fuel)%nat /\
            s' = mkTwi (log s) (S m).
Proof.
  induction fuel as [|f IH]; intros s s'.
  - split; [discriminate | intros (m & _ & H & _); lia].
  - simpl.
    destruct (Z.eqb_spec (Z.land (M (polls s)) TWI_WIF_bm) 0) as [E|E].
    + assert (N : ~ wif_set (M (polls s))) by (intro H; now apply H).
      rewrite IH. simpl. split; intros (m & F & L & ->); exists m.
      * pose proof (proj1 F) as F1.
        split; [apply (first_set_later M _ m N); exact F|].
        split; [lia | reflexivity].
      * pose proof (proj1 (first_set_later M _ m N) F) as F'.
        pose proof (proj1 F') as F1.
        split; [exact F'|]. split; [lia | reflexivity].
    + split.
      * intro H. inversion H; subst. exists (polls s).
        split; [now apply first_set_here|]. split; [lia | reflexivity].
      * intros (m & F & _ & ->). apply first_set_here in F; [|exact E].
        now subst.
Qed.

Lemma i2c_start_exact M address fuel s s' :
  i2c_start M address fuel s = Some s' <->
  exists m, first_set M (polls s) m /\ (m - polls s < fuel)%nat /\
            s' = mkTwi (log s ++ [WrMADDR (u8 (Z.shiftl address 1))]) (S m).
Proof.
  unfold i2c_start. rewrite after_store_wait. apply wait_exact.
Qed.

Lemma i2c_write_exact M data fuel s s' :
  i2c_write M data fuel s = Some s' <->
  exists m, first_set M (polls s) m /\ (m - polls s < fuel)%nat /\
            s' = mkTwi (log s ++ [WrMDATA data]) (S m).
Proof.
  unfold i2c_write. rewrite after_store_wait. apply wait_exact.
Qed.

(** X1. [i2c_start] and [i2c_write] return exactly when the wait loop is
    given more iterations than there are loads of MSTATUS before the first
    one that sees the flag; they return right after that load, having made
    their one register store and no other. *)
Theorem wait_leaves_at_first_flag
    (MSTATUS : nat -> Z) (address data : Z) (fuel : nat) (s s' : twi) :
  (i2c_start MSTATUS address fuel s = Some s' <->
   exists m, first_set MSTATUS (polls s) m /\ (m - polls s < fuel)%nat /\
             s' = mkTwi (log s ++ [WrMADDR (u8 (Z.shiftl address 1))]) (S m)) /\
  (i2c_write MSTATUS data fuel s = Some s' <->
   exists m, first_set MSTATUS (polls s) m /\ (m - polls s < fuel)%nat /\
             s' = mkTwi (log s ++ [WrMDATA data]) (S m)).
Proof.
  split; [apply i2c_start_exact | apply i2c_write_exact].
Qed.

Lemma wait_leaves_at_first_flag_witness :
  first_set every_third 0%nat 2%nat /\
  i2c_write every_third 0x40 3%nat twi_reset =
    Some (mkTwi [WrMDATA 0x40] 3%nat) /\
  i2c_write every_third 0x40 2%nat twi_reset = None.
Proof.
  assert (F : first_set every_third 0%nat 2%nat).
  { repeat split; [lia | discriminate |].
    intros k Hk H. apply H.
    assert (E : k = 0%nat \/ k = 1%nat) by lia.
    destruct E as [-> | ->]; reflexivity. }
  split; [exact F|]. split.
  - apply (proj2 (wait_leaves_at_first_flag every_third OLED_ADDR 0x40 3%nat
                    twi_reset (mkTwi [WrMDATA 0x40] 3%nat))).
    exists 2%nat. split; [exact F|]. split; [simpl; lia | reflexivity].
  - vm_compute; reflexivity.
Defined.

(** ** What a command needs from the hardware *)

Lemma command_log l cmd :
  (((l ++ [WrMADDR (u8 (Z.shiftl OLED_ADDR 1))]) ++ [WrMDATA 0x00]) ++
   [WrMDATA cmd]) ++ [WrMCTRLB TWI_MCMD_STOP_gc] = l ++ command_events cmd.
Proof. now rewrite <- !app_assoc. Qed.

Lemma oled_command_exact M cmd fuel s s' :
  oled_command M cmd fuel s = Some s' <->
  exists m1 m2 m3,
    first_set M (polls s) m1 /\ first_set M (S m1) m2 /\
    first_set M (S m2) m3 /\
    (m1 - polls s < fuel)%nat /\ (m2 - S m1 < fuel)%nat /\
    (m3 - S m2 < fuel)%nat /\
    s' = mkTwi (log s ++ command_events cmd) (S m3).
Proof.
  unfold oled_command. split.
  - intro H.
    apply seq_some in H. destruct H as (s1 & H1 & H).
    apply i2c_start_exact in H1. destruct H1 as (m1 & F1 & L1 & ->).
    apply seq_some in H. destruct H as (s2 & H2 & H).
    apply i2c_write_exact in H2. destruct H2 as (m2 & F2 & L2 & ->).
    apply seq_some in H. destruct H as (s3 & H3 & H).
    apply i2c_write_exact in H3. destruct H3 as (m3 & F3 & L3 & ->).
    inversion H; subst s'; clear H. cbn [polls log] in *.
    exists m1, m2, m3. rewrite command_log.
    repeat (split; [assumption|]). reflexivity.
  - intros (m1 & m2 & m3 & F1 & F2 & F3 & L1 & L2 & L3 & ->).
    apply seq_some. eexists. split.
    { apply i2c_start_exact. exists m1. repeat (split; [eassumption|]). reflexivity. }
    apply seq_some. eexists. split.
    { apply i2c_write_exact. exists m2. repeat (split; [eassumption|]). reflexivity. }
    apply seq_some. eexists. split.
    { apply i2c_write_exact. exists m3. repeat (split; [eassumption|]). reflexivity. }
    unfold i2c_stop, store. simpl. now rewrite command_log.
Qed.

(** X2. [oled_command] returns exactly when the hardware raises the flag
    three times, once for the address and once for each of the two bytes:
    with [m1], [m2], [m3] the first loads of MSTATUS that see the flag,
    each counted from the load after the previous one, the routine returns
    when every wait is given enough iterations, right after load [m3], and
    it has then written the four stores of one command transaction. *)
Theorem oled_command_needs_three_flags
    (MSTATUS : nat -> Z) (cmd : Z) (fuel : nat) (s s' : twi) :
  oled_command MSTATUS cmd fuel s = Some s' <->
  exists m1 m2 m3,
    first_set MSTATUS (polls s) m1 /\ first_set MSTATUS (S m1) m2 /\
    first_set MSTATUS (S m2) m3 /\
    (m1 - polls s < fuel)%nat /\ (m2 - S m1 < fuel)%nat /\
    (m3 - S m2 < fuel)%nat /\
    s' = mkTwi (log s ++ [WrMADDR 0x78; WrMDATA 0x00; WrMDATA cmd;
                          WrMCTRLB TWI_MCMD_STOP_gc]) (S m3).
Proof. apply oled_command_exact. Qed.

Lemma oled_command_needs_three_flags_witness :
  exists s', oled_command every_third 0xAF 3%nat twi_reset = Some s' /\
             polls s' = 9%nat /\
             oled_command every_third 0xAF 2%nat twi_reset = None.
Proof.
  eexists. split; [vm_compute; reflexivity|].
  destruct (proj1 (oled_command_needs_three_flags every_third 0xAF 3%nat
                     twi_reset _) ltac:(vm_compute; reflexivity))
    as (m1 & m2 & m3 & _).
  split; vm_compute; reflexivity.
Defined.

(** ** A bus that never answers *)

Lemma i2c_start_saw_flag M address fuel s s' :
  i2c_start M address fuel s = Some s' ->
  exists m, (polls s <= m)%nat /\ wif_set (M m).
Proof.
  intro H. apply i2c_start_exact in H.
  destruct H as (m & (Hle & Hw & _) & _). now exists m.
Qed.

Lemma seq_first (p q : prog) fuel s s' :
  (p ;; q) fuel s = Some s' -> exists s1, p fuel s = Some s1.
Proof.
  intro H. apply seq_some in H. destruct H as (s1 & H1 & _). now exists s1.
Qed.

Lemma oled_command_saw_flag M cmd fuel s s' :
  oled_command M cmd fuel s = Some s' ->
  exists m, (polls s <= m)%nat /\ wif_set (M m).
Proof.
  intro H. apply seq_first in H. destruct H as (s1 & H).
  eapply i2c_start_saw_flag, H.
Qed.

Lemma oled_write_char_saw_flag M beyond c fuel s s' :
  oled_write_char M beyond c fuel s = Some s' ->
  exists m, (polls s <= m)%nat /\ wif_set (M m).
Proof.
  intro H. apply seq_first in H. destruct H as (s1 & H).
  eapply i2c_start_saw_flag, H.
Qed.

Lemma none_of_no_flag {A} (r : option A) (P : Prop) :
  (forall a, r = Some a -> P) -> ~ P -> r = None.
Proof.
  intros H N. destruct r as [a|]; [|reflexivity]. elim N. now apply (H a).
Qed.

(** X3. No timeout anywhere: when no load of MSTATUS from the current one
    on ever sees the flag, none of [oled_command], [oled_write_char],
    [oled_set_cursor], [oled_init] and [oled_write_string] on a string that
    does not start with NUL returns, whatever the number of iterations
    allowed. *)
Theorem stuck_bus_hangs_every_routine
    (MSTATUS : nat -> Z) (beyond : Z -> Z) (s : twi) :
  (forall m, (polls s <= m)%nat -> ~ wif_set (MSTATUS m)) ->
  (forall cmd fuel, oled_command MSTATUS cmd fuel s = None) /\
  (forall c fuel, oled_write_char MSTATUS beyond c fuel s = None) /\
  (forall col row fuel, oled_set_cursor MSTATUS col row fuel s = None) /\
  (forall fuel, oled_init MSTATUS fuel s = None) /\
  (forall c rest fuel,
      c <> 0 -> oled_write_string MSTATUS beyond (c :: rest) fuel s = None).
Proof.
  intro Stuck.
  assert (N : ~ exists m, (polls s <= m)%nat /\ wif_set (MSTATUS m)).
  { intros (m & Hm & Hw). exact (Stuck m Hm Hw). }
  split; [|split; [|split; [|split]]].
  - intros cmd fuel. eapply none_of_no_flag; [|exact N].
    intros s'. apply oled_command_saw_flag.
  - intros c fuel. eapply none_of_no_flag; [|exact N].
    intros s'. apply oled_write_char_saw_flag.
  - intros col row fuel. eapply none_of_no_flag; [|exact N].
    intros s' H. apply seq_first in H. destruct H as (s1 & H).
    eapply oled_command_saw_flag, H.
  - intros fuel. eapply none_of_no_flag; [|exact N].
    intros s' H. apply seq_first in H. destruct H as (s1 & H).
    eapply oled_command_saw_flag, H.
  - intros c rest fuel Hc. eapply none_of_no_flag; [|exact N].
    intros s' H. simpl in H.
    destruct (Z.eqb_spec c 0); [contradiction|].
    apply seq_first in H. destruct H as (s1 & H).
    eapply oled_write_char_saw_flag, H.
Qed.

Lemma stuck_bus_hangs_every_routine_witness :
  (forall m, (polls twi_reset <= m)%nat -> ~ wif_set (never_ready m)) /\
  (forall fuel, oled_init never_ready fuel twi_reset = None) /\
  (forall fuel,
      oled_write_string never_ready erased (c_str "0") fuel twi_reset = None).
Proof.
  assert (N : forall m, (polls twi_reset <= m)%nat -> ~ wif_set (never_ready m)).
  { intros m _. apply never_ready_stuck. }
  destruct (stuck_bus_hangs_every_routine never_ready erased twi_reset N)
    as (_ & _ & _ & I & W).
  split; [exact N|]. split; [exact I|].
  intro fuel. apply (W 48 [] fuel). discriminate.
Defined.

(** ** Strings in general *)

Lemma seq_assoc (p q r : prog) fuel s :
  ((p ;; q) ;; r) fuel s = (p ;; q ;; r) fuel s.
Proof. unfold seq. now destruct (p fuel s). Qed.

Lemma seq_congr (p q q' : prog) fuel s :
  (forall s1, q fuel s1 = q' fuel s1) -> (p ;; q) fuel s = (p ;; q') fuel s.
Proof. intro H. unfold seq. now destruct (p fuel s). Qed.

Lemma write_string_app M beyond a b :
  Forall (fun c => c <> 0) a ->
  forall fuel s,
    oled_write_string M beyond (a ++ b) fuel s =
    (oled_write_string M beyond a ;; oled_write_string M beyond b) fuel s.
Proof.
  induction 1 as [|c a Hc _ IH]; intros fuel s; [reflexivity|].
  simpl. destruct (Z.eqb_spec c 0); [contradiction|].
  rewrite seq_assoc. apply seq_congr. intro s1. apply IH.
Qed.

Lemma write_string_nul M beyond a b :
  Forall (fun c => c <> 0) a ->
  forall fuel s,
    oled_write_string M beyond (a ++ 0 :: b) fuel s =
    oled_write_string M beyond a fuel s.
Proof.
  induction 1 as [|c a Hc _ IH]; intros fuel s; [reflexivity|].
  simpl. destruct (Z.eqb_spec c 0); [contradiction|].
  apply seq_congr. intro s1. apply IH.
Qed.

Lemma length_until_nul str : (List.length (until_nul str) <= List.length str)%nat.
Proof.
  induction str as [|c rest IH]; [reflexivity|].
  simpl. destruct (c =? 0); simpl; lia.
Qed.

(** X4. For every string, whatever its characters, [oled_write_string]
    performs one data transaction for each character before the first NUL,
    in order, and no other transaction; each carries six payload bytes, so
    the data bytes sent number six times the characters before the NUL and
    never more than six times the length of the buffer. Whenever the
    routine returns it has written exactly these, and on responsive
    hardware it returns. *)
Theorem write_string_one_transaction_per_char
    (MSTATUS : nat -> Z) (beyond : Z -> Z) (str : list Z) :
  let chars := until_nul str in
  let ts := List.map (fun c => data_txn (glyph beyond c ++ [0x00])) chars in
  emits (oled_write_string MSTATUS beyond str)
        (flat_map (char_events beyond) chars) /\
  transactions (flat_map (char_events beyond) chars) = Some ts /\
  List.length ts = List.length chars /\
  Forall (fun t => List.length (payload t) = 6%nat) ts /\
  List.length (byte_stream ts) = (6 * List.length chars)%nat /\
  (List.length (byte_stream ts) <= 6 * List.length str)%nat /\
  (responsive MSTATUS -> completes (oled_write_string MSTATUS beyond str)).
Proof.
  intros chars ts.
  destruct (behaves_oled_write_string MSTATUS beyond str) as (_ & E & C).
  assert (L : List.length (byte_stream ts) = (6 * List.length chars)%nat).
  { unfold ts. rewrite byte_stream_data_txns. apply length_char_payloads. }
  split; [exact E|]. split; [|split; [|split; [|split; [exact L|split]]]].
  - apply transactions_flat_map, transactions_char_events.
  - apply length_map.
  - unfold ts. apply Forall_map, Forall_forall. intros c _. reflexivity.
  - rewrite L. pose proof (length_until_nul str). unfold chars. lia.
  - exact C.
Qed.

Lemma write_string_one_transaction_per_char_witness :
  responsive always_ready /\
  completes (oled_write_string always_ready erased [72; 105; 0; 33]) /\
  exists s' ts,
    oled_write_string always_ready erased [72; 105; 0; 33] 1%nat twi_reset =
      Some s' /\
    transactions (log s') = Some ts /\ List.length ts = 2%nat.
Proof.
  destruct (write_string_one_transaction_per_char
              always_ready erased [72; 105; 0; 33])
    as (E & T & L & _ & _ & _ & C).
  split; [exact always_ready_responsive|].
  split; [apply C; exact always_ready_responsive|].
  eexists. eexists. split; [vm_compute; reflexivity|].
  split; [|exact L].
  rewrite (E 1%nat twi_reset) by (vm_compute; reflexivity). exact T.
Defined.

(** X5. [oled_write_string] stops at the first NUL: what follows it in
    memory is never sent, and on the empty string (a NUL at once) the
    routine returns the state untouched, without a store or a load, on any
    hardware and for any iteration bound. *)
Theorem write_string_stops_at_nul
    (MSTATUS : nat -> Z) (beyond : Z -> Z) (a b : list Z) :
  Forall (fun c => c <> 0) a ->
  (forall fuel s,
      oled_write_string MSTATUS beyond (a ++ 0 :: b) fuel s =
      oled_write_string MSTATUS beyond a fuel s) /\
  (forall fuel s, oled_write_string MSTATUS beyond (0 :: b) fuel s = Some s) /\
  (forall fuel s, oled_write_string MSTATUS beyond [] fuel s = Some s).
Proof.
  intro H. split; [now apply write_string_nul|]. now split.
Qed.

Lemma write_string_stops_at_nul_witness :
  Forall (fun c => c <> 0) (c_str "!") /\
  oled_write_string always_ready erased (c_str "!" ++ 0 :: c_str "9")
                    1%nat twi_reset =
  oled_write_string always_ready erased (c_str "!") 1%nat twi_reset /\
  oled_write_string never_ready erased [] 0%nat twi_reset = Some twi_reset.
Proof.
  assert (H : Forall (fun c => c <> 0) (c_str "!")).
  { repeat constructor. discriminate. }
  destruct (write_string_stops_at_nul always_ready erased
              (c_str "!") (c_str "9") H) as (N & _).
  split; [exact H|]. split; [apply N | reflexivity].
Defined.

(** X6. Writing a concatenation is writing the parts one after the other:
    when [a] contains no NUL, [oled_write_string (a ++ b)] behaves as
    [oled_write_string a] followed by [oled_write_string b], from every
    state and for every iteration bound. *)
Theorem write_string_concat
    (MSTATUS : nat -> Z) (beyond : Z -> Z) (a b : list Z) :
  Forall (fun c => c <> 0) a ->
  forall fuel s,
    oled_write_string MSTATUS beyond (a ++ b) fuel s =
    (oled_write_string MSTATUS beyond a ;;
     oled_write_string MSTATUS beyond b) fuel s.
Proof. apply write_string_app. Qed.

Lemma write_string_concat_witness :
  Forall (fun c => c <> 0) (c_str "Temp") /\
  oled_write_string always_ready erased (c_str "Temp" ++ c_str ": 25C")
                    1%nat twi_reset =
  (oled_write_string always_ready erased (c_str "Temp") ;;
   oled_write_string always_ready erased (c_str ": 25C")) 1%nat twi_reset.
Proof.
  assert (H : Forall (fun c => c <> 0) (c_str "Temp")).
  { repeat constructor; discriminate. }
  split; [exact H|].
  apply (write_string_concat always_ready erased _ _ H).
Defined.

(** ** What the driver never puts on the bus *)

Lemma display_write_command cmd : display_write (command_txn cmd).
Proof.
  repeat split. exists 0x00, [cmd]. split; [reflexivity | now left].
Qed.

Lemma display_write_data bytes : display_write (data_txn bytes).
Proof.
  repeat split. exists 0x40, bytes. split; [reflexivity | now right].
Qed.

Lemma only_display_writes_of_emits (p : prog) evs ts' :
  emits p evs -> transactions evs = Some ts' -> Forall display_write ts' ->
  only_display_writes p.
Proof.
  intros E T F fuel s s' ts Hs Hp. exists ts'. split; [|exact F].
  rewrite (E _ _ _ Hp). now apply transactions_app.
Qed.

Lemma Forall_display_write_map {A} (g : A -> txn) l :
  (forall x, display_write (g x)) -> Forall display_write (List.map g l).
Proof. intro H. apply Forall_map, Forall_forall. intros x _. apply H. Qed.

(** X7. The driver only ever writes to the display: every transaction that
    [oled_command], [oled_write_char], [oled_set_cursor],
    [oled_write_string] or [oled_init] adds is addressed to [0x3C] with the
    direction bit clear (no read, no other device), and begins with the
    control byte [0x00] or [0x40]. *)
Theorem driver_only_writes_to_display (MSTATUS : nat -> Z) (beyond : Z -> Z) :
  (forall cmd, only_display_writes (oled_command MSTATUS cmd)) /\
  (forall c, only_display_writes (oled_write_char MSTATUS beyond c)) /\
  (forall col row, only_display_writes (oled_set_cursor MSTATUS col row)) /\
  (forall str, only_display_writes (oled_write_string MSTATUS beyond str)) /\
  only_display_writes (oled_init MSTATUS).
Proof.
  split; [|split; [|split; [|split]]]; intros.
  - destruct (behaves_oled_command MSTATUS cmd) as (_ & E & _).
    eapply only_display_writes_of_emits;
      [exact E | apply transactions_command_events |].
    repeat constructor; apply display_write_command.
  - destruct (behaves_oled_write_char MSTATUS beyond c) as (_ & E & _).
    eapply only_display_writes_of_emits;
      [exact E | apply transactions_char_events |].
    repeat constructor; apply display_write_data.
  - destruct (behaves_oled_set_cursor MSTATUS col row) as (_ & E & _).
    eapply only_display_writes_of_emits; [exact E | reflexivity |].
    repeat constructor; apply display_write_command.
  - destruct (behaves_oled_write_string MSTATUS beyond str) as (_ & E & _).
    eapply only_display_writes_of_emits; [exact E | |].
    + apply transactions_flat_map, transactions_char_events.
    + apply Forall_display_write_map. intro c. apply display_write_data.
  - destruct (behaves_oled_init MSTATUS) as (_ & E & _).
    eapply only_display_writes_of_emits; [exact E | |].
    + apply transactions_flat_map, transactions_command_events.
    + apply Forall_display_write_map. intro c. apply display_write_command.
Qed.

Lemma driver_only_writes_to_display_witness :
  transactions (log twi_reset) = Some [] /\
  exists s' ts',
    oled_write_char always_ready erased 84 1%nat twi_reset = Some s' /\
    transactions (log s') = Some ([] ++ ts') /\ Forall display_write ts'.
Proof.
  destruct (driver_only_writes_to_display always_ready erased)
    as (_ & H & _).
  split; [reflexivity|].
  destruct (H 84 1%nat twi_reset
              (mkTwi (data_events [0xFF; 0xFF; 0xFF; 0xFF; 0xFF; 0x00]) 8) []
              ltac:(reflexivity) ltac:(vm_compute; reflexivity))
    as (ts' & T & F).
  exists (mkTwi (data_events [0xFF; 0xFF; 0xFF; 0xFF; 0xFF; 0x00]) 8), ts'.
  split; [vm_compute; reflexivity|]. split; [exact T | exact F].
Defined.

(** ** The cursor encoding *)

Lemma nibbles_of_byte col :
  0 <= col < 256 ->
  16 * Z.land (Z.shiftr col 4) 0x0F + Z.land col 0x0F = col.
Proof.
  intro Hc. change 0x0F with (Z.ones 4). rewrite !Z.land_ones by lia.
  rewrite Z.shiftr_div_pow2 by lia. change (2 ^ 4) with 16.
  rewrite (Z.mod_small (col / 16) 16).
  - rewrite (Z.div_mod col 16) at 3 by lia. lia.
  - split; [apply Z.div_pos; lia | apply Z.div_lt_upper_bound; lia].
Qed.

Lemma page_of_row row : 0 <= row < 256 -> u8 (u8 (0xB0 + row) - 0xB0) = row.
Proof.
  intro Hr. unfold u8.
  destruct (Z_lt_le_dec row 0x50).
  - rewrite (Z.mod_small (0xB0 + row)) by lia.
    replace (0xB0 + row - 0xB0) with row by lia. apply Z.mod_small. lia.
  - replace ((0xB0 + row) mod 256) with (row - 0x50).
    + replace (row - 0x50 - 0xB0) with (row + (-1) * 256) by lia.
      rewrite Z.mod_add by lia. apply Z.mod_small. lia.
    + symmetry. replace (0xB0 + row) with (row - 0x50 + 1 * 256) by lia.
      rewrite Z.mod_add by lia. apply Z.mod_small. lia.
Qed.

Lemma set_cursor_events M col row :
  emits (oled_set_cursor M col row)
        (command_events (u8 (0xB0 + row)) ++
         command_events (Z.land col 0x0F) ++
         command_events (0x10 + Z.land (Z.shiftr col 4) 0x0F)).
Proof.
  destruct (behaves_oled_set_cursor M col row) as (_ & E & _).
  pose proof (land_nibble col). pose proof (land_nibble (Z.shiftr col 4)).
  revert E. change (0x00 + Z.land col 0x0F) with (Z.land col 0x0F).
  rewrite (u8_small (Z.land col 0x0F)),
          (u8_small (0x10 + Z.land (Z.shiftr col 4) 0x0F)) by lia.
  exact (fun E => E).
Qed.

Lemma cursor_decodes col row :
  0 <= col < 256 -> 0 <= row < 256 ->
  cursor_of_commands (u8 (0xB0 + row)) (Z.land col 0x0F)
                     (0x10 + Z.land (Z.shiftr col 4) 0x0F) = (col, row).
Proof.
  intros Hc Hr. unfold cursor_of_commands.
  rewrite page_of_row by exact Hr. f_equal.
  pose proof (nibbles_of_byte col Hc). lia.
Qed.

(** X8. The three command bytes of [oled_set_cursor] determine the
    position: for [col] and [row] in [0..255] the routine sends, in three
    command transactions, the page byte [0xB0 + row] (as a byte) and the
    two column nibbles, and decoding these bytes (the column from the
    nibbles, the row from the page byte) gives back [col] and [row]; so two
    calls that bring the bus from one state to the same state were given
    the same position. Whenever the routine returns it has written exactly
    these, and on responsive hardware it returns. *)
Theorem set_cursor_round_trip
    (MSTATUS : nat -> Z) (col row col' row' : Z) :
  0 <= col < 256 -> 0 <= row < 256 ->
  0 <= col' < 256 -> 0 <= row' < 256 ->
  let page := u8 (0xB0 + row) in
  let lo := Z.land col 0x0F in
  let hi := 0x10 + Z.land (Z.shiftr col 4) 0x0F in
  emits (oled_set_cursor MSTATUS col row)
        (command_events page ++ command_events lo ++ command_events hi) /\
  transactions (command_events page ++ command_events lo ++
                command_events hi) =
    Some [command_txn page; command_txn lo; command_txn hi] /\
  cursor_of_commands page lo hi = (col, row) /\
  (responsive MSTATUS ->
   forall s, exists fuel s',
     oled_set_cursor MSTATUS col row fuel s = Some s' /\
     log s' = log s ++ command_events page ++ command_events lo ++
                       command_events hi) /\
  (forall fuel s s',
      oled_set_cursor MSTATUS col row fuel s = Some s' ->
      oled_set_cursor MSTATUS col' row' fuel s = Some s' ->
      col = col' /\ row = row').
Proof.
  intros Hc Hr Hc' Hr' page lo hi.
  split; [apply set_cursor_events|]. split; [reflexivity|].
  split; [now apply cursor_decodes|]. split.
  - intros R s.
    destruct (behaves_oled_set_cursor MSTATUS col row) as (_ & _ & C).
    destruct (C R s) as (fuel & s' & Hs). exists fuel, s'.
    split; [exact Hs | exact (set_cursor_events _ _ _ _ _ _ Hs)].
  - intros fuel s s' H H'.
    apply set_cursor_events in H. apply set_cursor_events in H'.
    rewrite H in H'. apply app_inv_head in H'.
    unfold command_events in H'. cbn [app] in H'.
    pose proof (cursor_decodes col row Hc Hr) as D.
    pose proof (cursor_decodes col' row' Hc' Hr') as D'.
    inversion H' as [[Hp Hl Hh]].
    assert (X : (col, row) = (col', row')) by congruence.
    now inversion X.
Qed.

Lemma set_cursor_round_trip_witness :
  (0 <= 200 < 256) /\ (0 <= 3 < 256) /\ responsive always_ready /\
  cursor_of_commands 0xB3 0x08 0x1C = (200, 3) /\
  (exists s',
      oled_set_cursor always_ready 200 3 1%nat twi_reset = Some s' /\
      transactions (log s') =
        Some [command_txn 0xB3; command_txn 0x08; command_txn 0x1C]) /\
  (exists fuel s',
      oled_set_cursor always_ready 200 3 fuel twi_reset = Some s' /\
      log s' = command_events 0xB3 ++ command_events 0x08 ++
               command_events 0x1C).
Proof.
  destruct (set_cursor_round_trip always_ready 200 3 200 3
              ltac:(lia) ltac:(lia) ltac:(lia) ltac:(lia))
    as (E & T & D & C & _).
  split; [lia|]. split; [lia|]. split; [exact always_ready_responsive|].
  split; [exact D|]. split.
  - eexists. split; [vm_compute; reflexivity|].
    rewrite (E 1%nat twi_reset) by (vm_compute; reflexivity). exact T.
  - apply (C always_ready_responsive twi_reset).
Defined.





(** ** The address byte *)

Lemma shiftl_one a : Z.shiftl a 1 = 2 * a.
Proof. rewrite Z.shiftl_mul_pow2 by lia. change (2 ^ 1) with 2. lia. Qed.

Lemma maddr_drops_top_bit a : u8 (Z.shiftl (a + 128) 1) = u8 (Z.shiftl a 1).
Proof.
  rewrite !shiftl_one. unfold u8.
  replace (2 * (a + 128)) with (2 * a + 1 * 256) by lia.
  now rewrite Z.mod_add by lia.
Qed.

(** X10. [i2c_start] always addresses for writing, and keeps seven bits of
    its argument: for a 7-bit [address] the routine stores [2 * address] in
    MADDR and nothing else, returning right after the first load of MSTATUS
    that sees the flag; a bus reads that byte back as [address] with the
    direction bit clear. Bit 7 of the argument is lost, so [address + 128]
    selects the same device as [address]. On responsive hardware the
    routine returns. *)
Theorem i2c_start_address_byte (MSTATUS : nat -> Z) (address : Z) :
  (forall fuel s,
      i2c_start MSTATUS (address + 128) fuel s =
      i2c_start MSTATUS address fuel s) /\
  (0 <= address < 128 ->
   emits (i2c_start MSTATUS address) [WrMADDR (2 * address)] /\
   transactions [WrMADDR (2 * address); WrMCTRLB TWI_MCMD_STOP_gc] =
     Some [mkTxn address false []] /\
   (forall fuel s s',
       i2c_start MSTATUS address fuel s = Some s' <->
       exists m, first_set MSTATUS (polls s) m /\ (m - polls s < fuel)%nat /\
                 s' = mkTwi (log s ++ [WrMADDR (2 * address)]) (S m)) /\
   (responsive MSTATUS ->
    forall s, exists fuel s',
      i2c_start MSTATUS (address + 128) fuel s = Some s' /\
      log s' = log s ++ [WrMADDR (2 * address)])).
Proof.
  assert (W : forall fuel s,
             i2c_start MSTATUS (address + 128) fuel s =
             i2c_start MSTATUS address fuel s).
  { intros fuel s. unfold i2c_start. now rewrite maddr_drops_top_bit. }
  split; [exact W|]. intro Ha.
  assert (B : u8 (Z.shiftl address 1) = 2 * address)
    by (rewrite shiftl_one, u8_small by lia; reflexivity).
  destruct (behaves_i2c_start MSTATUS address) as (_ & E & C).
  rewrite B in E.
  split; [exact E|]. split; [|split].
  - unfold transactions. cbn [parse].
    replace (Z.shiftr (2 * address) 1) with address.
    + replace (Z.testbit (2 * address) 0) with false; [reflexivity|].
      symmetry. apply Z.testbit_even_0.
    + rewrite Z.shiftr_div_pow2 by lia. change (2 ^ 1) with 2.
      symmetry. rewrite Z.mul_comm. apply Z.div_mul. lia.
  - intros fuel s s'. rewrite <- B. apply i2c_start_exact.
  - intros R s. destruct (C R s) as (fuel & s' & Hs). exists fuel, s'.
    split; [now rewrite W | exact (E _ _ _ Hs)].
Qed.

Lemma i2c_start_address_byte_witness :
  (0 <= OLED_ADDR < 128) /\ responsive always_ready /\
  transactions [WrMADDR (2 * OLED_ADDR); WrMCTRLB TWI_MCMD_STOP_gc] =
    Some [mkTxn OLED_ADDR false []] /\
  i2c_start always_ready OLED_ADDR 1%nat twi_reset =
    Some (mkTwi [WrMADDR (2 * OLED_ADDR)] 1) /\
  i2c_start always_ready (OLED_ADDR + 128) 1%nat twi_reset =
    Some (mkTwi [WrMADDR (2 * OLED_ADDR)] 1) /\
  (exists fuel s',
      i2c_start always_ready (OLED_ADDR + 128) fuel twi_reset = Some s' /\
      log s' = [WrMADDR (2 * OLED_ADDR)]).
Proof.
  assert (H : 0 <= OLED_ADDR < 128) by (unfold OLED_ADDR; lia).
  destruct (i2c_start_address_byte always_ready OLED_ADDR) as (W & A).
  destruct (A H) as (_ & T & X & C).
  assert (F : first_set always_ready (polls twi_reset) 0).
  { repeat split; [simpl; lia | discriminate | intros k Hk; simpl in Hk; lia]. }
  assert (S1 : i2c_start always_ready OLED_ADDR 1%nat twi_reset =
               Some (mkTwi [WrMADDR (2 * OLED_ADDR)] 1)).
  { apply (proj2 (X 1%nat twi_reset _)). exists 0%nat.
    split; [exact F|]. split; [simpl; lia | reflexivity]. }
  split; [exact H|]. split; [exact always_ready_responsive|].
  split; [exact T|]. split; [exact S1|]. split.
  - rewrite W. exact S1.
  - apply (C always_ready_responsive twi_reset).
Defined.

(** ** When the table is enough *)

Lemma supported_dec c : {supported c} + {~ supported c}.
Proof.
  unfold supported.
  destruct (Z_le_dec 32 c); [|right; lia].
  destruct (Z_lt_dec c (32 + font_rows)); [left | right]; lia.
Qed.

Lemma write_string_supported_indep M b1 b2 str :
  Forall supported (until_nul str) ->
  forall fuel s,
    oled_write_string M b1 str fuel s = oled_write_string M b2 str fuel s.
Proof.
  induction str as [|c rest IH]; intros H fuel s; [reflexivity|].
  simpl in *. destruct (c =? 0); [reflexivity|].
  inversion H as [|? ? Hc Hrest]; subst.
  unfold seq. rewrite (write_char_supported_indep M b1 b2 c Hc).
  destruct (oled_write_char M b2 c fuel s); [now apply IH | reflexivity].
Qed.

Lemma char_events_differ_outside l :
  flat_map (char_events (fun _ => 0)) l = flat_map (char_events (fun _ => 1)) l ->
  Forall supported l.
Proof.
  induction l as [|c l IH]; intro H; [constructor|].
  cbn [flat_map] in H.
  unfold char_events at 1 3, data_events, glyph in H.
  cbn [List.map app] in H.
  injection H as E0 _ _ _ _ Erest.
  constructor; [|now apply IH].
  destruct (supported_dec c) as [S|S]; [exact S|].
  unfold pgm_read_byte in E0.
  rewrite (unsupported_outside_table c 0 S) in E0 by lia.
  discriminate E0.
Qed.

(** X11. On responsive hardware, what [oled_write_string] does is the
    same for every content of program memory outside the font table
    exactly when each character before the first NUL lies in
    [32, 32 + 12): strings of such characters are rendered from the table
    alone, any other string is rendered from memory next to it. *)
Theorem write_string_table_only_iff (MSTATUS : nat -> Z) (str : list Z) :
  responsive MSTATUS ->
  ((forall b1 b2 fuel s,
       oled_write_string MSTATUS b1 str fuel s =
       oled_write_string MSTATUS b2 str fuel s) <->
   Forall (fun c => 32 <= c < 32 + font_rows) (until_nul str)).
Proof.
  intro R. split.
  - intro H. apply char_events_differ_outside.
    destruct (behaves_oled_write_string MSTATUS (fun _ => 0) str)
      as (_ & E0 & C0).
    destruct (behaves_oled_write_string MSTATUS (fun _ => 1) str)
      as (_ & E1 & _).
    destruct (C0 R twi_reset) as (fuel & s' & H0).
    pose proof H0 as H1. rewrite (H _ (fun _ => 1)) in H1.
    apply E0 in H0. apply E1 in H1. rewrite H0 in H1. exact H1.
  - intros H b1 b2 fuel s. now apply write_string_supported_indep.
Qed.

Lemma write_string_table_only_iff_witness :
  responsive always_ready /\
  Forall (fun c => 32 <= c < 32 + font_rows) (until_nul (c_str "! !")) /\
  oled_write_string always_ready erased (c_str "! !") 1%nat twi_reset =
  oled_write_string always_ready (fun _ => 0) (c_str "! !") 1%nat twi_reset.
Proof.
  assert (F : Forall (fun c => 32 <= c < 32 + font_rows)
                     (until_nul (c_str "! !"))).
  { repeat constructor; vm_compute; discriminate || reflexivity. }
  split; [exact always_ready_responsive|]. split; [exact F|].
  apply (proj2 (write_string_table_only_iff always_ready (c_str "! !")
                  always_ready_responsive) F).
Defined.

(** ** The table *)

(** X12. The table is a 5x7 font: it has twelve rows of five bytes, and
    for every character in [32, 32 + 12) each of the five column bytes
    looked up has bit 7 clear, as has the separator, so text written by
    [oled_write_char] never lights the bottom pixel row of its page. *)
Theorem font_is_five_by_seven (beyond : Z -> Z) (c : Z) :
  32 <= c < 32 + font_rows ->
  List.length font = 12%nat /\
  Forall (fun row => List.length row = 5%nat) font /\
  Forall (fun b => 0 <= b < 0x80 /\ Z.testbit b 7 = false)
         (glyph beyond c ++ [0x00]).
Proof.
  intro H. split; [reflexivity|]. split.
  - repeat constructor.
  - apply supported_cases in H.
    repeat (destruct H as [-> | H];
            [solve [vm_compute; repeat constructor; discriminate]|]).
    subst. vm_compute; repeat constructor; discriminate.
Qed.

Lemma font_is_five_by_seven_witness :
  32 <= 43 < 32 + font_rows /\
  Forall (fun b => 0 <= b < 0x80 /\ Z.testbit b 7 = false)
         (glyph erased 43 ++ [0x00]).
Proof.
  assert (H : 32 <= 43 < 32 + font_rows)
    by (vm_compute; split; [discriminate | reflexivity]).
  split; [exact H|]. apply (font_is_five_by_seven erased 43 H).
Defined.

(** X13. No digit is rendered from its own row. For every digit code [d]
    ([48..57]) the lookup [font[d - 32]] lies wholly outside the table; the
    row that the source labels with [d] is row [d - 46], and the lookup
    returns it for the code [d - 14] instead. The only codes whose lookup
    returns the row labelled with them are 32 and 33. *)
Theorem digits_never_get_their_row (beyond : Z -> Z) (d : Z) :
  48 <= d <= 57 ->
  (forall i, 0 <= i < 5 -> in_table (font_offset (d - 32) i) = false) /\
  nth (Z.to_nat (d - 46)) font_labels 0 = d /\
  glyph beyond (d - 14) = nth (Z.to_nat (d - 46)) font [] /\
  (forall c, 32 <= c < 32 + font_rows ->
             (nth (Z.to_nat (c - 32)) font_labels 0 = c <-> c = 32 \/ c = 33)).
Proof.
  intro H. split; [|split; [|split]].
  - intros i Hi. apply unsupported_outside_table; [|exact Hi].
    unfold supported, font_rows. change (Z.of_nat (List.length font)) with 12.
    lia.
  - assert (E : d = 48 \/ d = 49 \/ d = 50 \/ d = 51 \/ d = 52 \/ d = 53 \/
                d = 54 \/ d = 55 \/ d = 56 \/ d = 57) by lia.
    repeat (destruct E as [-> | E]; [reflexivity|]). now subst.
  - assert (E : d = 48 \/ d = 49 \/ d = 50 \/ d = 51 \/ d = 52 \/ d = 53 \/
                d = 54 \/ d = 55 \/ d = 56 \/ d = 57) by lia.
    repeat (destruct E as [-> | E]; [reflexivity|]). now subst.
  - intros c Hc. apply supported_cases in Hc.
    repeat (destruct Hc as [-> | Hc];
            [split; intro X;
             [ first [ left; reflexivity | right; reflexivity
                     | vm_compute in X; discriminate X ]
             | first [ reflexivity
                     | destruct X as [X|X]; discriminate X ] ] |]).
    subst. split; intro X;
      [vm_compute in X; discriminate X | destruct X as [X|X]; discriminate X].
Qed.

Lemma digits_never_get_their_row_witness :
  48 <= 53 <= 57 /\
  in_table (font_offset (53 - 32) 0) = false /\
  glyph erased (53 - 14) = [0x27; 0x45; 0x45; 0x45; 0x39].
Proof.
  assert (H : 48 <= 53 <= 57) by lia.
  destruct (digits_never_get_their_row erased 53 H) as (O & _ & G & _).
  split; [exact H|]. split; [apply O; lia | exact G].
Defined.

(** * The program *)

Lemma idle_loop_never_returns fuel m : idle_loop fuel m = None.
Proof. induction fuel as [|f IH]; [reflexivity | exact IH]. Qed.

Lemma main_bus_behaves M beyond :
  behaves M
    (oled_init M ;;
     oled_set_cursor M 0 0 ;;
     oled_write_string M beyond (c_str "Temp: 25C") ;;
     oled_set_cursor M 0 1 ;;
     oled_write_string M beyond (c_str "Humidity: 50%"))
    (flat_map command_events init_sequence ++
     flat_map command_events [0xB0; 0x00; 0x10] ++
     flat_map (char_events beyond) (c_str "Temp: 25C") ++
     flat_map command_events [0xB1; 0x00; 0x10] ++
     flat_map (char_events beyond) (c_str "Humidity: 50%")).
Proof.
  apply behaves_seq; [apply behaves_oled_init|].
  apply behaves_seq;
    [apply (behaves_ext M _ _ _ eq_refl (behaves_oled_set_cursor M 0 0))|].
  apply behaves_seq;
    [apply (behaves_ext M _ _ _ eq_refl
              (behaves_oled_write_string M beyond (c_str "Temp: 25C")))|].
  apply behaves_seq;
    [apply (behaves_ext M _ _ _ eq_refl (behaves_oled_set_cursor M 0 1))|].
  apply (behaves_ext M _ _ _ eq_refl
           (behaves_oled_write_string M beyond (c_str "Humidity: 50%"))).
Qed.

Lemma main_transactions beyond :
  transactions
    (flat_map command_events init_sequence ++
     flat_map command_events [0xB0; 0x00; 0x10] ++
     flat_map (char_events beyond) (c_str "Temp: 25C") ++
     flat_map command_events [0xB1; 0x00; 0x10] ++
     flat_map (char_events beyond) (c_str "Humidity: 50%")) =
  Some (List.map command_txn init_sequence ++
        List.map command_txn [0xB0; 0x00; 0x10] ++
        List.map (fun c => data_txn (glyph beyond c ++ [0x00]))
                 (c_str "Temp: 25C") ++
        List.map command_txn [0xB1; 0x00; 0x10] ++
        List.map (fun c => data_txn (glyph beyond c ++ [0x00]))
                 (c_str "Humidity: 50%")).
Proof.
  repeat apply transactions_app;
    first [ apply transactions_flat_map, transactions_command_events
          | apply transactions_flat_map, transactions_char_events ].
Qed.

Lemma main_setup_result M beyond fuel m' :
  main_setup M beyond fuel mcu_reset = Some m' ->
  cfg m' = [WrMBAUD 11; WrMCTRLA TWI_ENABLE_bm] /\
  transactions (log (bus m')) =
  Some (List.map command_txn init_sequence ++
        List.map command_txn [0xB0; 0x00; 0x10] ++
        List.map (fun c => data_txn (glyph beyond c ++ [0x00]))
                 (c_str "Temp: 25C") ++
        List.map command_txn [0xB1; 0x00; 0x10] ++
        List.map (fun c => data_txn (glyph beyond c ++ [0x00]))
                 (c_str "Humidity: 50%")).
Proof.
  unfold main_setup, on_bus. intro H.
  destruct (main_bus_behaves M beyond) as (_ & E & _).
  match type of H with
  | match ?p fuel ?s with _ => _ end = _ =>
      destruct (p fuel s) as [b|] eqn:R; [|discriminate]
  end.
  inversion H; subst m'; clear H. split; [reflexivity|].
  cbn [bus]. rewrite (E _ _ _ R). apply main_transactions.
Qed.

(** X14. [main] configures the peripheral ([MBAUD = 11], enable), then, on
    responsive hardware, reaches its idle loop with the bus idle after
    exactly 51 transactions: the 23 commands of the bring-up, the cursor
    commands [B0 00 10], one data transaction for each of the 9 characters
    of the first line, the cursor commands [B1 00 10], one data transaction
    for each of the 13 characters of the second line. [main] itself never
    returns. *)
Theorem main_reaches_idle_loop (MSTATUS : nat -> Z) (beyond : Z -> Z) :
  (responsive MSTATUS ->
   exists fuel m', main_setup MSTATUS beyond fuel mcu_reset = Some m') /\
  (forall fuel m',
      main_setup MSTATUS beyond fuel mcu_reset = Some m' ->
      cfg m' = [WrMBAUD 11; WrMCTRLA TWI_ENABLE_bm] /\
      exists ts,
        transactions (log (bus m')) = Some ts /\
        ts = List.map command_txn init_sequence ++
             List.map command_txn [0xB0; 0x00; 0x10] ++
             List.map (fun c => data_txn (glyph beyond c ++ [0x00]))
                      (c_str "Temp: 25C") ++
             List.map command_txn [0xB1; 0x00; 0x10] ++
             List.map (fun c => data_txn (glyph beyond c ++ [0x00]))
                      (c_str "Humidity: 50%") /\
        List.length ts = 51%nat) /\
  (forall fuel m, main MSTATUS beyond fuel m = None).
Proof.
  split; [|split].
  - intro R. destruct (main_bus_behaves MSTATUS beyond) as (_ & _ & C).
    destruct (C R twi_reset) as (fuel & b & H).
    exists fuel, (mkMcu [WrMBAUD 11; WrMCTRLA TWI_ENABLE_bm] b).
    unfold main_setup, on_bus.
    change (bus (i2c_init mcu_reset)) with twi_reset. now rewrite H.
  - intros fuel m' H. apply main_setup_result in H. destruct H as (Hc & Ht).
    split; [exact Hc|]. eexists. split; [exact Ht|]. split; reflexivity.
  - intros fuel m. unfold main.
    destruct (main_setup MSTATUS beyond fuel m);
      [apply idle_loop_never_returns | reflexivity].
Qed.

Lemma main_reaches_idle_loop_witness :
  responsive always_ready /\
  exists m' ts,
    main_setup always_ready erased 1%nat mcu_reset = Some m' /\
    transactions (log (bus m')) = Some ts /\ List.length ts = 51%nat.
Proof.
  destruct (main_reaches_idle_loop always_ready erased) as (_ & H & _).
  split; [exact always_ready_responsive|].
  assert (R : main_setup always_ready erased 1%nat mcu_reset =
              Some (mkMcu [WrMBAUD 11; WrMCTRLA TWI_ENABLE_bm]
                      (mkTwi
                         (flat_map command_events init_sequence ++
                          flat_map command_events [0xB0; 0x00; 0x10] ++
                          flat_map (char_events erased) (c_str "Temp: 25C") ++
                          flat_map command_events [0xB1; 0x00; 0x10] ++
                          flat_map (char_events erased)
                                   (c_str "Humidity: 50%")) 263)))
    by (vm_compute; reflexivity).
  destruct (H _ _ R) as (_ & ts & T & _ & L).
  eexists. exists ts. split; [exact R|]. split; [exact T | exact L].
Defined.

(** X15. The text that [main] writes is not in the table: of its 22
    characters only the two spaces and the percent sign have a code in
    [32, 32 + 12); all the others are looked up outside the table, so the
    bytes [main] sends to the display change with the content of program
    memory next to [font]. *)
Theorem main_text_leaves_table (MSTATUS : nat -> Z) :
  let text := c_str "Temp: 25C" ++ c_str "Humidity: 50%" in
  List.length text = 22%nat /\
  Forall (fun c => 32 <= c < 32 + font_rows <-> c = 32 \/ c = 37) text /\
  (forall fuel m0 m1,
      main_setup MSTATUS (fun _ => 0) fuel mcu_reset = Some m0 ->
      main_setup MSTATUS (fun _ => 1) fuel mcu_reset = Some m1 ->
      log (bus m0) <> log (bus m1)).
Proof.
  intro text. split; [reflexivity|]. split.
  - unfold text, font_rows. change (Z.of_nat (List.length font)) with 12.
    vm_compute c_str. repeat constructor; intros; lia.
  - intros fuel m0 m1 H0 H1 E.
    apply main_setup_result in H0. apply main_setup_result in H1.
    destruct H0 as (_ & T0). destruct H1 as (_ & T1).
    rewrite E in T0. rewrite T0 in T1. vm_compute in T1. discriminate T1.
Qed.

Lemma main_text_leaves_table_witness :
  exists m0 m1,
    main_setup always_ready (fun _ => 0) 1%nat mcu_reset = Some m0 /\
    main_setup always_ready (fun _ => 1) 1%nat mcu_reset = Some m1 /\
    log (bus m0) <> log (bus m1).
Proof.
  destruct (main_text_leaves_table always_ready) as (_ & _ & H).
  eexists. eexists. split; [vm_compute; reflexivity|].
  split; [vm_compute; reflexivity|].
  apply (H 1%nat); vm_compute; reflexivity.
Defined.
